(** * Pseudocolor compositor of plantcv: a shallow embedding

    The development embeds [plantcv/plantcv/pseudocolor.py] and proves
    properties of its range clamp, region restriction, background selection
    and mask-gated overlay.

    Modelling conventions.
    - A numpy array is a shape together with a flat row-major buffer.
      Samples are integers: the embedding does not model a dtype's
      wrap-around except where the source fixes the dtype ([np.uint8] for
      the background layer).
    - The caller's arrays live in a store indexed by locations, because the
      source assigns into [gray_img] in place.
    - [params], the pyplot current figure and the files and windows produced
      by the debug modes are fields of an explicit program state.
    - Exceptions are an outcome of the state-and-error monad [M]. *)

From Stdlib Require Import ZArith Lia.
From stdpp Require Import base option list strings pretty gmap.

(** ** numpy arrays *)

Module Np.

Record ndarray := mk_ndarray { shape : list nat; data : list Z }.

(** [a.size] for a given shape. *)
Definition size_of (sh : list nat) : nat := foldr Nat.mul 1%nat sh.

(** Arrays handed over by numpy always satisfy this. *)
Definition wf (a : ndarray) : Prop := length (data a) = size_of (shape a).

(** [len(np.shape(a))] *)
Definition ndim (a : ndarray) : nat := length (shape a).

(** [np.copy(a)]: a new object with the same contents. *)
Definition copy (a : ndarray) : ndarray := mk_ndarray (shape a) (data a).

(** [a[cond(a)] = v] seen on the contents: boolean-mask assignment of a
    scalar.  The scalar is stored as it is, which is what numpy does when
    the dtype of [a] can hold [v]; a scalar outside the dtype would be
    wrapped or refused, and statements about stored bounds assume that the
    dtype holds them. *)
Definition assign_where (cond : Z -> bool) (v : Z) (a : ndarray) : ndarray :=
  mk_ndarray (shape a) (map (fun s => if cond s then v else s) (data a)).

(** [np.zeros(sh, dtype=np.uint8)] *)
Definition zeros (sh : list nat) : ndarray :=
  mk_ndarray sh (replicate (size_of sh) 0%Z).

(** [a += k] on a [np.uint8] array: addition modulo 256. *)
Definition iadd_uint8 (a : ndarray) (k : Z) : ndarray :=
  mk_ndarray (shape a) (map (fun s => ((s + k) mod 256)%Z) (data a)).

(** Boolean arrays: [a.astype(np.bool)] and [~b]. *)
Record boolarray := mk_boolarray { bshape : list nat; bits : list bool }.

Definition astype_bool (a : ndarray) : boolarray :=
  mk_boolarray (shape a) (map (fun s => negb (s =? 0)%Z) (data a)).

Definition invert (b : boolarray) : boolarray :=
  mk_boolarray (bshape b) (map negb (bits b)).

(** *** Two-dimensional access *)

Definition nrows (a : ndarray) : nat := nth 0 (shape a) 0%nat.
Definition ncols (a : ndarray) : nat := nth 1 (shape a) 0%nat.

(** [a[i, j]] for an index inside the array.  Outside, numpy raises
    [IndexError]; the embedding only reads inside and the default [0] is
    never observed. *)
Definition get2 (a : ndarray) (i j : nat) : Z :=
  nth (i * ncols a + j) (data a) 0%Z.

(** The [h] by [w] array whose sample at [(i, j)] is [f i j]. *)
Definition tabulate2 (h w : nat) (f : nat -> nat -> Z) : ndarray :=
  mk_ndarray [h; w] (flat_map (fun i => map (f i) (seq 0 w)) (seq 0 h)).

(** Python's normalisation of a slice bound [k] on an axis of length [n]
    (step 1): a negative bound counts from the end, and every bound is
    clipped to [0 .. n]. *)
Definition slice_bound (k : Z) (n : nat) : nat :=
  Z.to_nat (if (k <? 0)%Z then Z.max 0 (k + Z.of_nat n) else Z.min k (Z.of_nat n)).

(** [a[r0:r1, c0:c1]] on a two-dimensional array.  On an array with fewer
    dimensions Python raises [IndexError]; statements about crops assume
    two dimensions. *)
Definition slice2 (a : ndarray) (r0 r1 c0 c1 : Z) : ndarray :=
  let rlo := slice_bound r0 (nrows a) in
  let rhi := slice_bound r1 (nrows a) in
  let clo := slice_bound c0 (ncols a) in
  let chi := slice_bound c1 (ncols a) in
  tabulate2 (rhi - rlo) (chi - clo) (fun i j => get2 a (rlo + i) (clo + j)).

(** *** Masked arrays *)

(** [np.ma.MaskedArray]: where the mask bit is [true] the sample is
    invalid (hidden). *)
Record masked_array := mk_masked { ma_data : ndarray; ma_mask : list bool }.

Inductive ma_error := MaskError (nd nm : nat).

(** [np.ma.array(d, mask=m)]: a mask of another shape is resized when it
    has one element, reshaped when it has as many elements as the data,
    and refused otherwise. *)
Definition ma_array (d : ndarray) (m : boolarray) : ma_error + masked_array :=
  if decide (bshape m = shape d) then inr (mk_masked d (bits m))
  else
    let nd := length (data d) in
    let nm := length (bits m) in
    if decide (nm = 1%nat) then inr (mk_masked d (replicate nd (nth 0 (bits m) false)))
    else if decide (nm = nd) then inr (mk_masked d (bits m))
    else inl (MaskError nd nm).

End Np.

(** ** OpenCV functions used by the source *)

Module Cv2.
Import Np.

Inductive error := Error (msg : string).

(** A contour is an [N x 1 x 2] array: its buffer lists [x0, y0, x1, y1, ...]. *)
Fixpoint points (d : list Z) : list (Z * Z) :=
  match d with
  | x :: y :: rest => (x, y) :: points rest
  | _ => []
  end.

(** [cv2.boundingRect(pts)]: the up-right rectangle [(x, y, w, h)] around a
    point set, with [w = xmax - xmin + 1] and [h = ymax - ymin + 1]; the
    empty rectangle for no point.  OpenCV computes in 32-bit integers;
    the embedding does not wrap, and statements about rectangles assume
    that [w] and [h] are below [2^31]. *)
Definition boundingRect (pts : ndarray) : Z * Z * Z * Z :=
  match points (data pts) with
  | [] => (0, 0, 0, 0)%Z
  | (x0, y0) :: rest =>
      let xmin := foldr Z.min x0 (map fst rest) in
      let xmax := foldr Z.max x0 (map fst rest) in
      let ymin := foldr Z.min y0 (map snd rest) in
      let ymax := foldr Z.max y0 (map snd rest) in
      (xmin, ymin, xmax - xmin + 1, ymax - ymin + 1)%Z
  end.

Inductive border_type := BORDER_CONSTANT.

(** [cv2.copyMakeBorder(src, top, bottom, left, right, BORDER_CONSTANT,
    value)] on a single-channel image: a new image with [src] in the
    middle and the first component of [value] around it.  OpenCV asserts
    that the four widths are not negative.  For an image without samples
    the binding returns [None] when the result is empty too, and the source
    then fails on [mask.astype]; this is not modelled, an image without
    samples is padded like any other, and statements about crops assume a
    window with samples. *)
Definition copyMakeBorder (src : ndarray) (top bottom left right : Z)
    (bt : border_type) (value : Z * Z * Z) : error + ndarray :=
  if ((top <? 0) || (bottom <? 0) || (left <? 0) || (right <? 0))%Z
  then inl (Error "top >= 0 && bottom >= 0 && left >= 0 && right >= 0")
  else
    let t := Z.to_nat top in
    let l := Z.to_nat left in
    inr (tabulate2 (nrows src + t + Z.to_nat bottom) (ncols src + l + Z.to_nat right)
           (fun i j =>
              if ((t <=? i) && (i <? t + nrows src) && (l <=? j) && (j <? l + ncols src))%nat
              then get2 src (i - t) (j - l)
              else value.1.1)).

End Cv2.

(** ** pyplot: the current figure *)

Module Plt.
Import Np.

Inductive image_data := Plain (a : ndarray) | Masked (m : masked_array).

(** What [plt.imshow(X, cmap=c)] adds to the axes.  The colormap is an
    opaque name ([None] is the default map). *)
Record axes_image := mk_image { im_data : image_data; im_cmap : option string }.

(** [plt.colorbar(fraction=0.033, pad=0.04)], in thousandths. *)
Record colorbar := mk_colorbar { fraction_milli : Z; pad_milli : Z }.

Record figure := mk_figure {
  images : list axes_image;        (* in drawing order: later images are on top *)
  title : option string;
  colorbars : list colorbar;
  xticks : option (list Z);        (* [None]: automatic ticks *)
  yticks : option (list Z)
}.

(** An image paints pixel [(i, j)] when the pixel is inside it and, for a
    masked array, not masked: matplotlib leaves masked samples
    transparent. *)
Definition paints (im : axes_image) (i j : nat) : bool :=
  match im_data im with
  | Plain a => (i <? nrows a)%nat && (j <? ncols a)%nat
  | Masked m =>
      (i <? nrows (ma_data m))%nat && (j <? ncols (ma_data m))%nat
      && negb (nth (i * ncols (ma_data m) + j) (ma_mask m) false)
  end.

(** The image seen at pixel [(i, j)] of a stack: the last one drawn that
    paints the pixel. *)
Definition visible (ims : list axes_image) (i j : nat) : option axes_image :=
  last (filter (fun im => paints im i j = true) ims).


End Plt.

(** ** Program state and the monad of the source *)

Import Np.

Abbreviation loc := positive.

Inductive event :=
  | Savefig (fname : string) (dpi : option Z) (fig : Plt.figure)
  | PlotImage (im : Plt.axes_image).

Record state := mk_state {
  device : Z;                   (* params.device *)
  debug : option string;        (* params.debug *)
  heap : gmap positive ndarray; (* the numpy arrays alive, by identity; each owns its samples *)
  gcf : Plt.figure;             (* pyplot's current figure *)
  trace : list event            (* what the debug modes wrote or showed *)
}.

Inductive exn :=
  | FatalError (msg : string)
  | NpMaskError (e : Np.ma_error)
  | Cv2Error (e : Cv2.error)
  | InvalidRef (l : positive).

Inductive outcome (A : Type) :=
  | Return (a : A)
  | Raise (e : exn).
Arguments Return {A} a.
Arguments Raise {A} e.

Definition M (A : Type) : Type := state -> outcome A * state.

#[global] Instance M_ret : MRet M := fun A a s => (Return a, s).
#[global] Instance M_bind : MBind M := fun A B f m s =>
  match m s with
  | (Return a, s') => f a s'
  | (Raise e, s') => (Raise e, s')
  end.

Definition raise {A} (e : exn) : M A := fun s => (Raise e, s).

Definition when (b : bool) (m : M unit) : M unit := if b then m else mret tt.

(** Modelled from the spec: [fatal_error] is imported from [plantcv.plantcv]
    and is not among the sources.  The spec makes the failures it reports
    fatal: the call is aborted at once with the message. *)
Definition fatal_error {A} (msg : string) : M A := raise (FatalError msg).

Definition lift_ma {A} (r : Np.ma_error + A) : M A :=
  match r with inl e => raise (NpMaskError e) | inr a => mret a end.

Definition lift_cv {A} (r : Cv2.error + A) : M A :=
  match r with inl e => raise (Cv2Error e) | inr a => mret a end.

Definition set_heap (s : state) (h : gmap positive ndarray) : state :=
  mk_state (device s) (debug s) h (gcf s) (trace s).

(** [params.device += 1] *)
Definition incr_device : M unit := fun s =>
  (Return tt, mk_state (device s + 1) (debug s) (heap s) (gcf s) (trace s)).

Definition get_device : M Z := fun s => (Return (device s), s).
Definition get_debug : M (option string) := fun s => (Return (debug s), s).

(** Reading the array a name is bound to.  A name always refers to a live
    object in Python; [InvalidRef] only makes the embedding total. *)
Definition load (l : loc) : M ndarray := fun s =>
  match heap s !! l with
  | Some a => (Return a, s)
  | None => (Raise (InvalidRef l), s)
  end.

(** A new array object. *)
Definition alloc (a : ndarray) : M loc := fun s =>
  let l := fresh (dom (heap s)) in
  (Return l, set_heap s (<[l := a]> (heap s))).

(** In-place update of the object at [l]. *)
Definition update (l : loc) (f : ndarray -> ndarray) : M unit := fun s =>
  match heap s !! l with
  | Some a => (Return tt, set_heap s (<[l := f a]> (heap s)))
  | None => (Raise (InvalidRef l), s)
  end.

Definition with_gcf (f : Plt.figure -> Plt.figure) : M unit := fun s =>
  (Return tt, mk_state (device s) (debug s) (heap s) (f (gcf s)) (trace s)).

Definition emit (e : event) : M unit := fun s =>
  (Return tt, mk_state (device s) (debug s) (heap s) (gcf s) (trace s ++ [e])).

(** [plt.imshow(X, cmap=c)]: the image is added on top of the current axes
    and returned.  The image is recorded with the samples [X] has at the
    call. *)
Definition imshow (x : Plt.image_data) (c : option string) : M Plt.axes_image :=
  let im := Plt.mk_image x c in
  with_gcf (fun f => Plt.mk_figure (Plt.images f ++ [im]) (Plt.title f) (Plt.colorbars f)
                       (Plt.xticks f) (Plt.yticks f));;
  mret im.

Definition plt_title (t : string) : M unit :=
  with_gcf (fun f => Plt.mk_figure (Plt.images f) (Some t) (Plt.colorbars f)
                       (Plt.xticks f) (Plt.yticks f)).

Definition plt_colorbar (fraction pad : Z) : M unit :=
  with_gcf (fun f => Plt.mk_figure (Plt.images f) (Plt.title f)
                       (Plt.colorbars f ++ [Plt.mk_colorbar fraction pad])
                       (Plt.xticks f) (Plt.yticks f)).

Definition plt_xticks (t : list Z) : M unit :=
  with_gcf (fun f => Plt.mk_figure (Plt.images f) (Plt.title f) (Plt.colorbars f)
                       (Some t) (Plt.yticks f)).

Definition plt_yticks (t : list Z) : M unit :=
  with_gcf (fun f => Plt.mk_figure (Plt.images f) (Plt.title f) (Plt.colorbars f)
                       (Plt.xticks f) (Some t)).

Definition plt_gcf : M Plt.figure := fun s => (Return (gcf s), s).

(** [plt.savefig(fname, dpi=dpi)] *)
Definition plt_savefig (fname : string) (dpi : option Z) : M unit :=
  fig ← plt_gcf; emit (Savefig fname dpi fig).

(** Modelled from the spec: [plot_image] is imported from [plantcv.plantcv]
    and is not among the sources.  The spec's [plot] debug mode renders to an
    interactive display. *)
Definition plot_image (im : Plt.axes_image) : M unit := emit (PlotImage im).

(** [os.path.join(a, b)] on a POSIX system. *)
Definition os_path_join (a b : string) : string :=
  if String.prefix "/" b then b
  else if decide (a = "") then b
  else if decide (String.substring (String.length a - 1) 1 a = "/") then a +:+ b
  else a +:+ "/" +:+ b.

(** Python objects compared by the guards of the clamp. *)
Inductive pyobj := PyInt (n : Z) | PyBuiltin (name : string).

(** [a != b] *)
Definition py_ne (a b : pyobj) : bool :=
  match a, b with
  | PyInt x, PyInt y => negb (x =? y)%Z
  | PyBuiltin f, PyBuiltin g => negb (String.eqb f g)
  | _, _ => true
  end.

(** [int(a / b)] for integers [a] and [b]: the quotient truncated toward
    zero. *)
Definition int_div (a b : Z) : Z := Z.quot a b.

(** ** The source function *)

Section Pseudocolor.

(** [cv2.rectangle(img, pt1, pt2, color, thickness)] draws into [img].
    The source only draws on a private copy it never reads again, so the
    rasteriser is left abstract. *)
Variable cv2_rectangle : ndarray -> Z * Z -> Z * Z -> Z * Z * Z -> Z -> ndarray.

(** Lines 51-56: the two guarded in-place assignments.  The first guard
    compares the builtin [max], not [max_value], with 255.  The bound is
    stored as it is, which is what numpy stores when the field's dtype
    holds the bound. *)
Definition clamp_range (gray_img : loc) (min_value max_value : Z) : M unit :=
  when (py_ne (PyBuiltin "max") (PyInt 255))
    (update gray_img (assign_where (fun s => (s >? max_value)%Z) max_value));;
  when (py_ne (PyInt min_value) (PyInt 0))
    (update gray_img (assign_where (fun s => (s <? min_value)%Z) min_value)).

(** Lines 61-81: crop image and mask to the bounding rectangle of [obj]
    and surround both with a zero border.  Returns the arrays the local
    names [gray_img] and [mask] are rebound to. *)
Definition crop_to_object (gray_img mask obj : loc) : M (ndarray * ndarray) :=
  g ← load gray_img;
  img_copy ← alloc (Np.copy g);
  o ← load obj;
  let '(x, y, w, h) := Cv2.boundingRect o in
  update img_copy (fun a => cv2_rectangle a (x, y) (x + w, y + h)%Z (0, 255, 0)%Z 5%Z);;
  g ← load gray_img;
  let crop_img := slice2 g y (y + h) x (x + w) in
  let offsetx := int_div w 5 in
  let offsety := int_div h 5 in
  gray ← lift_cv (Cv2.copyMakeBorder crop_img offsety offsety offsetx offsetx
                     Cv2.BORDER_CONSTANT (0, 0, 0)%Z);
  m ← load mask;
  let crop_mask := slice2 m y (y + h) x (x + w) in
  msk ← lift_cv (Cv2.copyMakeBorder crop_mask offsety offsety offsetx offsetx
                    Cv2.BORDER_CONSTANT (0, 0, 0)%Z);
  mret (gray, msk).

(** Lines 86-105: the background image and its colormap. *)
Definition background_layer (background : string) (gray : ndarray) : M (ndarray * string) :=
  if decide (background = "black") then
    mret (zeros (shape gray), "gray")
  else if decide (background = "white") then
    mret (iadd_uint8 (zeros (shape gray)) 255, "gray_r")
  else if decide (background = "image") then
    mret (gray, "gray")
  else
    fatal_error ("Background type " +:+ background
                 +:+ " is not supported. Please use 'white', 'black', or 'image'.").

(** Lines 113-130 and 135-152, the same statements in both branches:
    title, colorbar, ticks, the figure, and the debug output. *)
Definition decorate (pseudo_img1 : Plt.axes_image) (dpi : option Z) (axes : bool)
    (path : string) : M Plt.figure :=
  plt_title "Pseudocolored image";;
  plt_colorbar 33 40;;
  when (negb axes) (plt_xticks [];; plt_yticks []);;
  pseudo_img ← plt_gcf;
  dbg ← get_debug;
  dev ← get_device;
  (if decide (dbg = Some "print") then
     plt_savefig (os_path_join path (pretty dev +:+ "_pseudocolored.png")) dpi
   else if decide (dbg = Some "plot") then
     plot_image pseudo_img1
   else mret tt);;
  mret pseudo_img.

Definition pseudocolor (gray_img : loc) (mask : option loc) (cmap : option string)
    (background : string) (min_value max_value : Z) (obj : option loc)
    (dpi : option Z) (axes : bool) (path : string) : M Plt.figure :=
  incr_device;;
  g0 ← load gray_img;
  when (negb (ndim g0 =? 2)%nat) (fatal_error "Image must be grayscale.");;
  clamp_range gray_img min_value max_value;;
  match mask with
  | Some mask =>
      '(gray, msk) ← match obj with
                     | Some obj => crop_to_object gray_img mask obj
                     | None => g ← load gray_img; m ← load mask; mret (g, m)
                     end;
      masked_img ← lift_ma (ma_array gray (invert (astype_bool msk)));
      '(bkg_img, bkg_cmap) ← background_layer background gray;
      pseudo_img1 ← imshow (Plt.Plain bkg_img) (Some bkg_cmap);
      imshow (Plt.Masked masked_img) cmap;;
      decorate pseudo_img1 dpi axes path
  | None =>
      g ← load gray_img;
      pseudo_img1 ← imshow (Plt.Plain g) cmap;
      decorate pseudo_img1 dpi axes path
  end.

End Pseudocolor.

(** A rasteriser to run the embedding with: it leaves the image as it is. *)
Definition no_raster (a : ndarray) (_ _ : Z * Z) (_ : Z * Z * Z) (_ : Z) : ndarray := a.

Definition empty_figure : Plt.figure := Plt.mk_figure [] None [] None None.

(** A state holding the given arrays at locations 1, 2, ... *)
Definition state_of (arrays : list ndarray) : state :=
  mk_state 0 None (list_to_map (zip (map Pos.of_nat (seq 1 (length arrays))) arrays))
    empty_figure [].

Definition arr2 (rows : list (list Z)) : ndarray :=
  mk_ndarray [length rows; length (default [] (head rows))] (concat rows).

(** A contour array from its points. *)
Definition contour (pts : list (Z * Z)) : ndarray :=
  mk_ndarray [length pts; 1; 2]%nat (flat_map (fun p => [p.1; p.2]) pts).

(** ** Derived descriptions used in the statements *)

(** The contents of the field after [clamp_range]. *)
Definition clamped (min_value max_value : Z) (g : ndarray) : ndarray :=
  let g1 := assign_where (fun s => (s >? max_value)%Z) max_value g in
  if (min_value =? 0)%Z then g1
  else assign_where (fun s => (s <? min_value)%Z) min_value g1.

(** The window [a[y:y+h, x:x+w]] surrounded by [h/5] rows and [w/5] columns
    of zeros on each side ([/] is the floor division of [Z]). *)
Definition padded_crop (a : ndarray) (x y w h : Z) : ndarray :=
  let crop := slice2 a y (y + h) x (x + w) in
  let oy := Z.to_nat (h / 5) in
  let ox := Z.to_nat (w / 5) in
  tabulate2 (nrows crop + oy + oy) (ncols crop + ox + ox)
    (fun i j =>
       if ((oy <=? i) && (i <? oy + nrows crop) && (ox <=? j) && (j <? ox + ncols crop))%nat
       then get2 crop (i - oy) (j - ox)
       else 0%Z).

(** The pair of arrays the names [gray_img] and [mask] denote when the mask
    is applied: cropped and padded when an object is given. *)
Definition restricted (g m : ndarray) (o : option ndarray) : ndarray * ndarray :=
  match o with
  | Some o =>
      let '(x, y, w, h) := Cv2.boundingRect o in
      (padded_crop g x y w h, padded_crop m x y w h)
  | None => (g, m)
  end.

(** The background selectors the source knows. *)
Definition supported (background : string) : Prop :=
  background = "image" \/ background = "white" \/ background = "black".

(** The clamp as the specification words it: above [max_value] becomes
    [max_value], below [min_value] becomes [min_value]. *)
Definition clamp_as_specified (min_value max_value : Z) (before after : ndarray) : Prop :=
  forall k v, data before !! k = Some v ->
    ((v > max_value)%Z -> data after !! k = Some max_value) /\
    ((v < min_value)%Z -> data after !! k = Some min_value).

(** A computation keeps the store when every array alive before it is
    alive and unchanged after it, whether it returns or raises. *)
Definition keeps {A} (m : M A) : Prop :=
  forall s l a, heap s !! l = Some a -> heap (m s).2 !! l = Some a.

(** What the clamp does to one sample. *)
Definition clamp_sample (a b v : Z) : Z :=
  let v1 := if (v >? b)%Z then b else v in
  if (a =? 0)%Z then v1 else if (v1 <? a)%Z then a else v1.

(** Case analysis on the integer comparisons of a goal, closed by [lia]. *)
Ltac ltb_cases :=
  repeat case_match;
  repeat match goal with
         | H : (_ <? _)%Z = true |- _ => apply Z.ltb_lt in H
         | H : (_ <? _)%Z = false |- _ => apply Z.ltb_ge in H
         | H : (_ =? _)%Z = true |- _ => apply Z.eqb_eq in H
         | H : (_ =? _)%Z = false |- _ => apply Z.eqb_neq in H
         end;
  try lia.

(** The figure after [decorate], and what its debug step emits. *)
Definition decorated (f : Plt.figure) (axes : bool) : Plt.figure :=
  Plt.mk_figure (Plt.images f) (Some "Pseudocolored image")
    (Plt.colorbars f ++ [Plt.mk_colorbar 33 40])
    (if axes then Plt.xticks f else Some [])
    (if axes then Plt.yticks f else Some []).

Definition debug_events (s : state) (fig : Plt.figure) (im : Plt.axes_image)
    (dpi : option Z) (path : string) : list event :=
  if decide (debug s = Some "print") then
    [Savefig (os_path_join path (pretty (device s) +:+ "_pseudocolored.png")) dpi fig]
  else if decide (debug s = Some "plot") then [PlotImage im]
  else [].

(** Unfolding of the monad operations on a given state. *)
Ltac run_monad :=
  cbv [mbind M_bind mret M_ret raise fatal_error when lift_cv lift_ma
       plt_title plt_colorbar plt_xticks plt_yticks with_gcf plt_gcf plt_savefig
       plot_image emit imshow get_debug get_device incr_device negb].

(** The store once the clamp has run: the names [mask] and [obj] are read
    from it, so a mask that is the field itself is read clamped. *)
Definition after_clamp (s : state) (gray_img : loc) (min_value max_value : Z)
    : gmap positive ndarray :=
  match heap s !! gray_img with
  | Some g => <[gray_img := clamped min_value max_value g]> (heap s)
  | None => heap s
  end.

(** The optional argument [obj] denotes the optional array [o] in store [h]. *)
Definition denotes (h : gmap positive ndarray) (obj : option loc) (o : option ndarray) : Prop :=
  match obj, o with
  | Some l, Some a => h !! l = Some a
  | None, None => True
  | _, _ => False
  end.

(** The background image and colormap of a supported selector. *)
Definition background_of (background : string) (gray : ndarray) : ndarray * string :=
  if decide (background = "black") then (zeros (shape gray), "gray")
  else if decide (background = "white") then (iadd_uint8 (zeros (shape gray)) 255, "gray_r")
  else (gray, "gray").

Definition background_image (background : string) (gray : ndarray) : Plt.axes_image :=
  Plt.mk_image (Plt.Plain (background_of background gray).1)
    (Some (background_of background gray).2).

(** The overlay: the field behind the inverted boolean mask. *)
Definition overlay_image (gray msk : ndarray) (cmap : option string) : Plt.axes_image :=
  Plt.mk_image (Plt.Masked (mk_masked gray (bits (invert (astype_bool msk))))) cmap.

(** The figure a call with a mask builds on top of the current figure [f]. *)
Definition composite (f : Plt.figure) (background : string) (gray msk : ndarray)
    (cmap : option string) (axes : bool) : Plt.figure :=
  decorated
    (Plt.mk_figure (Plt.images f ++ [background_image background gray; overlay_image gray msk cmap])
       (Plt.title f) (Plt.colorbars f) (Plt.xticks f) (Plt.yticks f))
    axes.

(** A computation that raises in every state. *)
Definition raises {A} (m : M A) : Prop := forall s, exists e, (m s).1 = Raise e.

(** [outer] is [inner] with [top] rows of zeros above and below it and
    [left] columns of zeros on either side. *)
Definition padded_by (top left : nat) (inner outer : ndarray) : Prop :=
  shape outer = [top + nrows inner + top; left + ncols inner + left]%nat
  /\ (forall i j, (i < nrows inner)%nat -> (j < ncols inner)%nat ->
        get2 outer (top + i) (left + j) = get2 inner i j)
  /\ (forall i j, (i < nrows outer)%nat -> (j < ncols outer)%nat ->
        ~ ((top <= i < top + nrows inner)%nat /\ (left <= j < left + ncols inner)%nat) ->
        get2 outer i j = 0%Z).

(** ** Concrete inputs *)

Module Demo.

(** A 2 x 2 signed field and a 0/255 mask of its shape. *)
Definition field : ndarray := arr2 [[200; -5]; [3; 151]]%Z.
Definition fmask : ndarray := arr2 [[255; 0]; [0; 255]]%Z.

(** A 10 x 10 ramp, a mask of its upper half, and a contour through
    [(2, 2)] and [(7, 8)]: its bounding rectangle is [(2, 2, 6, 7)]. *)
Definition ramp : ndarray := tabulate2 10 10 (fun i j => Z.of_nat (i * 10 + j)).
Definition upper : ndarray := tabulate2 10 10 (fun i j => if (i <? 5)%nat then 255%Z else 0%Z).
Definition blob : ndarray := contour [(2, 2); (7, 8)]%Z.

(** A 3 x 3 field, a mask of its shape, and a contour that reaches
    [(9, 9)], outside of them. *)
Definition small : ndarray := tabulate2 3 3 (fun i j => Z.of_nat (i * 3 + j)).
Definition small_mask : ndarray := tabulate2 3 3 (fun _ _ => 255%Z).
Definition wide : ndarray := contour [(0, 0); (9, 9)]%Z.

(** A colour image: three dimensions. *)
Definition bgr : ndarray := mk_ndarray [1; 1; 3]%nat [10; 20; 30]%Z.

Definition run (s : state) (mask : option loc) (background : string)
    (min_value max_value : Z) (obj : option loc) : outcome Plt.figure * state :=
  pseudocolor no_raster 1%positive mask (Some "jet") background min_value max_value
    obj None true "." s.

End Demo.

(** ** Facts about arrays *)

Section ArrayFacts.

Lemma nth_rows (f : nat -> nat -> Z) (w h s i j : nat) (d : Z) :
  (i < h)%nat -> (j < w)%nat ->
  nth (i * w + j) (flat_map (fun r => map (f r) (seq 0 w)) (seq s h)) d = f (s + i)%nat j.
Proof.
  revert s i. induction h as [|h IH]; intros s i Hi Hj; [lia|].
  cbn [seq flat_map]. destruct i as [|i].
  - rewrite app_nth1 by (rewrite length_map, length_seq; lia).
    cbn [Nat.mul Nat.add]. rewrite (nth_indep _ d (f s 0%nat)) by (rewrite length_map, length_seq; lia).
    rewrite map_nth, seq_nth by lia. f_equal; lia.
  - rewrite app_nth2 by (rewrite length_map, length_seq; lia).
    rewrite length_map, length_seq.
    replace (S i * w + j - w)%nat with (i * w + j)%nat by lia.
    rewrite IH by lia. f_equal; lia.
Qed.

Lemma get2_tabulate2 (f : nat -> nat -> Z) (h w i j : nat) :
  (i < h)%nat -> (j < w)%nat -> get2 (tabulate2 h w f) i j = f i j.
Proof. intros Hi Hj. unfold get2, tabulate2, ncols. cbn. now rewrite nth_rows. Qed.

Lemma length_rows (f : nat -> nat -> Z) (w h s : nat) :
  length (flat_map (fun r => map (f r) (seq 0 w)) (seq s h)) = (h * w)%nat.
Proof.
  revert s. induction h as [|h IH]; intros s; [done|].
  cbn [seq flat_map]. rewrite length_app, length_map, length_seq, IH. lia.
Qed.

Lemma wf_tabulate2 (f : nat -> nat -> Z) (h w : nat) : wf (tabulate2 h w f).
Proof. unfold wf, tabulate2. cbn. rewrite length_rows. lia. Qed.

Lemma tabulate2_ext (f g : nat -> nat -> Z) (h w : nat) :
  (forall i j, (i < h)%nat -> (j < w)%nat -> f i j = g i j) ->
  tabulate2 h w f = tabulate2 h w g.
Proof.
  intros Hfg. unfold tabulate2. f_equal.
  assert (forall s, (forall i, In i (seq s h) -> (i < s + h)%nat)) as Hin
    by (intros s i Hi; apply in_seq in Hi; lia).
  enough (forall s, (s + h <= h)%nat ->
    flat_map (fun i => map (f i) (seq 0 w)) (seq s h)
    = flat_map (fun i => map (g i) (seq 0 w)) (seq s h)) as E by (apply E; lia).
  intros s Hs. assert (s = 0)%nat as -> by lia. clear Hs.
  generalize (Hin 0%nat). generalize (seq 0 h). intros l Hl.
  induction l as [|r l IH]; [done|]. cbn [flat_map]. f_equal.
  - apply map_ext_in. intros j Hj. apply in_seq in Hj. apply Hfg; [|lia].
    specialize (Hl r (or_introl eq_refl)). lia.
  - apply IH. intros i Hi. apply Hl. now right.
Qed.

Lemma shape_tabulate2 f h w : shape (tabulate2 h w f) = [h; w].
Proof. done. Qed.

Lemma nrows_tabulate2 f h w : nrows (tabulate2 h w f) = h.
Proof. done. Qed.

Lemma ncols_tabulate2 f h w : ncols (tabulate2 h w f) = w.
Proof. done. Qed.

(** A well-formed two-dimensional array is the table of its samples. *)
Lemma nrows_ncols_same_shape (a b : ndarray) :
  shape a = shape b -> nrows a = nrows b /\ ncols a = ncols b.
Proof. unfold nrows, ncols. now intros ->. Qed.

Lemma slice_bound_inside (k : Z) (n : nat) :
  (0 <= k <= Z.of_nat n)%Z -> slice_bound k n = Z.to_nat k.
Proof.
  intros H. unfold slice_bound. destruct (Z.ltb_spec k 0); [lia|]. f_equal. lia.
Qed.

Lemma slice_bound_le (k : Z) (n : nat) : (slice_bound k n <= n)%nat.
Proof. unfold slice_bound. destruct (Z.ltb_spec k 0); lia. Qed.

Lemma shape_assign_where c v a : shape (assign_where c v a) = shape a.
Proof. done. Qed.

End ArrayFacts.

(** ** Further descriptions *)

(** The range of values a numpy dtype holds. *)
Record dtype := mk_dtype { dt_min : Z; dt_max : Z }.

Definition uint8 : dtype := mk_dtype 0 255.
Definition int64 : dtype := mk_dtype (- 2 ^ 63) (2 ^ 63 - 1).

(** The dtype can hold the scalar [v]: assigning [v] into an array of this
    dtype stores [v] itself. *)
Definition fits (dt : dtype) (v : Z) : Prop := (dt_min dt <= v <= dt_max dt)%Z.

(** The rectangle of the object [o] can be cropped out of [a]: its corners,
    width and height are within OpenCV's 32-bit integers and the window
    [a[y:y+h, x:x+w]] has samples. *)
Definition croppable (a o : ndarray) : Prop :=
  let '(x, y, w, h) := Cv2.boundingRect o in
  (- 2 ^ 31 <= x)%Z /\ (- 2 ^ 31 <= y)%Z
  /\ (x + w <= 2 ^ 31)%Z /\ (y + h <= 2 ^ 31)%Z
  /\ (w < 2 ^ 31)%Z /\ (h < 2 ^ 31)%Z
  /\ (0 < nrows (slice2 a y (y + h) x (x + w)))%nat
  /\ (0 < ncols (slice2 a y (y + h) x (x + w)))%nat.

(** The same for an optional object: nothing is asked when there is none. *)
Definition croppable_if_given (a : ndarray) (o : option ndarray) : Prop :=
  match o with
  | Some o => croppable a o
  | None => True
  end.

(** Every array has the dtype [int64], or every array [uint8]: the
    assignments of dtypes used to run the statements at concrete inputs. *)
Definition all_int64 (_ : ndarray) : dtype := int64.
Definition all_uint8 (_ : ndarray) : dtype := uint8.

(** A computation leaves a component of the state as it was, whether it
    returns or raises. *)
Definition preserves {A B} (proj : state -> B) (m : M A) : Prop :=
  forall s, proj (m s).2 = proj s.

(** The mask [m] laid out in the shape of the field [g], sample by sample
    in buffer order. *)
Definition reshaped_to (g m : ndarray) : ndarray := mk_ndarray (shape g) (data m).

(** ** Background subtraction

    The embedding of [plantcv/background_subtraction.py].  Its step counter
    and debug mode are arguments, not [params]; its output goes to the
    standard output and to [print_image] and [plot_image]. *)

Module Bs.

Inductive exn :=
  | FatalError (msg : string)
  | IndexError (msg : string)
  | Cv2Error (e : Cv2.error)
  | InvalidRef (l : positive).

Inductive outcome (A : Type) :=
  | Return (a : A)
  | Raise (e : exn).
Arguments Return {A} a.
Arguments Raise {A} e.

Inductive event :=
  | PrintImage (img : ndarray) (filename : string)
  | PlotImage (img : ndarray) (cmap : string).

Record state := mk_state {
  heap : gmap positive ndarray;  (* the numpy arrays alive, by identity *)
  stdout : list string;          (* the lines printed *)
  trace : list event             (* what the debug modes wrote or showed *)
}.

Definition M (A : Type) : Type := state -> outcome A * state.

#[global] Instance M_ret : MRet M := fun A a s => (Return a, s).
#[global] Instance M_bind : MBind M := fun A B f m s =>
  match m s with
  | (Return a, s') => f a s'
  | (Raise e, s') => (Raise e, s')
  end.

Definition raise {A} (e : exn) : M A := fun s => (Raise e, s).

Definition when (b : bool) (m : M unit) : M unit := if b then m else mret tt.

(** Modelled from the spec: [fatal_error] is imported from the package and
    is not among the sources.  The spec makes the failures it reports
    fatal: the call is aborted at once with the message. *)
Definition fatal_error {A} (msg : string) : M A := raise (FatalError msg).

Definition lift_cv {A} (r : Cv2.error + A) : M A :=
  match r with inl e => raise (Cv2Error e) | inr a => mret a end.

Definition load (l : loc) : M ndarray := fun s =>
  match heap s !! l with
  | Some a => (Return a, s)
  | None => (Raise (InvalidRef l), s)
  end.

Definition alloc (a : ndarray) : M loc := fun s =>
  let l := fresh (dom (heap s)) in
  (Return l, mk_state (<[l := a]> (heap s)) (stdout s) (trace s)).

(** [np.copy(x)]: a new array object with the samples of [x].  Nothing
    in this function writes to an array afterwards, so that the copies
    protect the caller's images is not something this embedding can
    show. *)
Definition np_copy (x : loc) : M ndarray :=
  a ← load x;
  alloc (Np.copy a);;
  mret (Np.copy a).

(** [print(line)] *)
Definition print (line : string) : M unit := fun s =>
  (Return tt, mk_state (heap s) (stdout s ++ [line]) (trace s)).

Definition emit (e : event) : M unit := fun s =>
  (Return tt, mk_state (heap s) (stdout s) (trace s ++ [e])).

(** Modelled from the spec: [print_image] and [plot_image] are imported
    from the package and are not among the sources.  In the spec the
    [print] debug mode renders to a path and the [plot] mode to an
    interactive display. *)
Definition print_image (img : ndarray) (filename : string) : M unit :=
  emit (PrintImage img filename).

Definition plot_image (img : ndarray) (cmap : string) : M unit :=
  emit (PlotImage img cmap).

(** [a > b] on tuples of integers: the first position where they differ
    decides, and a proper prefix is the smaller one. *)
Fixpoint tuple_gt (a b : list nat) : bool :=
  match a, b with
  | x :: a', y :: b' => if (x =? y)%nat then tuple_gt a' b' else (y <? x)%nat
  | _ :: _, [] => true
  | [], _ => false
  end.

(** [t[i]] on a tuple. *)
Definition tuple_get (t : list nat) (i : nat) : M nat :=
  match t !! i with
  | Some n => mret n
  | None => raise (IndexError "tuple index out of range")
  end.

Inductive interpolation := INTER_AREA.

(** The line break inside the warning. *)
Definition newline : string := String (Ascii.ascii_of_nat 10) EmptyString.

Definition size_warning : string :=
  "WARNING: Images are not of same size." +:+ newline +:+ "Resizing".

Section BackgroundSubtraction.

(** [cv2.resize(src, (width, height), interpolation=...)] and the
    mixture-of-gaussians subtractor of OpenCV are left abstract: a
    constructor, and [apply], which updates the subtractor's model and
    returns the foreground mask.  Both may be refused by OpenCV. *)
Variable cv2_resize : ndarray -> nat * nat -> interpolation -> Cv2.error + ndarray.
Variable subtractor : Type.
Variable BackgroundSubtractorMOG : subtractor.
Variable mog_apply : subtractor -> ndarray -> Cv2.error + (subtractor * ndarray).

(** Lines 44-55: when the shapes differ, the image whose shape is the
    greater tuple is resized to the width and height of the other. *)
Definition match_sizes (bg_img fg_img : ndarray) : M (ndarray * ndarray) :=
  if negb (bool_decide (shape bg_img = shape fg_img)) then
    when (negb (length (shape bg_img) =? length (shape fg_img))%nat)
      (fatal_error "Images must both be single-channel/grayscale/binary or RGB");;
    print size_warning;;
    if tuple_gt (shape bg_img) (shape fg_img) then
      width ← tuple_get (shape fg_img) 1;
      height ← tuple_get (shape fg_img) 0;
      bg_img ← lift_cv (cv2_resize bg_img (width, height) INTER_AREA);
      mret (bg_img, fg_img)
    else
      width ← tuple_get (shape bg_img) 1;
      height ← tuple_get (shape bg_img) 0;
      fg_img ← lift_cv (cv2_resize fg_img (width, height) INTER_AREA);
      mret (bg_img, fg_img)
  else mret (bg_img, fg_img).

Definition background_subtraction (background_image foreground_image : loc)
    (device : Z) (debug : option string) : M (Z * ndarray) :=
  let device := (device + 1)%Z in
  bg_img ← np_copy background_image;
  fg_img ← np_copy foreground_image;
  '(bg_img, fg_img) ← match_sizes bg_img fg_img;
  let bgsub := BackgroundSubtractorMOG in
  '(bgsub, fgmask) ← lift_cv (mog_apply bgsub bg_img);
  '(bgsub, fgmask) ← lift_cv (mog_apply bgsub fg_img);
  (if decide (debug = Some "print") then
     print_image fgmask (pretty device +:+ "_background_subtraction.png")
   else if decide (debug = Some "plot") then
     plot_image fgmask "gray"
   else mret tt);;
  mret (device, fgmask).

End BackgroundSubtraction.

(** *** Instances to run the embedding with *)

(** A resize by nearest sample, for two-dimensional images; it refuses an
    empty image and an empty size. *)
Definition nearest_resize (a : ndarray) (dsize : nat * nat) (_ : interpolation)
    : Cv2.error + ndarray :=
  let '(width, height) := dsize in
  if ((nrows a =? 0) || (ncols a =? 0) || (width =? 0) || (height =? 0))%nat
  then inl (Cv2.Error "empty image or size")
  else inr (tabulate2 height width
              (fun i j => get2 a (i * nrows a / height) (j * ncols a / width))).

(** A subtractor that remembers the last frame and marks the samples that
    differ from it. *)
Definition frame_diff (last : option ndarray) (img : ndarray)
    : Cv2.error + (option ndarray * ndarray) :=
  match last with
  | None => inr (Some img, mk_ndarray (shape img) (map (fun _ => 0%Z) (data img)))
  | Some prev =>
      inr (Some img,
           mk_ndarray (shape img)
             (zip_with (fun p c => if (p =? c)%Z then 0%Z else 255%Z) (data prev) (data img)))
  end.

Definition state_of (arrays : list ndarray) : state :=
  mk_state (list_to_map (zip (map Pos.of_nat (seq 1 (length arrays))) arrays)) [] [].

(** *** Descriptions used in the statements *)

(** A computation keeps the store when every array alive before it is
    alive and unchanged after it, whether it returns or raises. *)
Definition keeps {A} (m : M A) : Prop :=
  forall s l a, heap s !! l = Some a -> heap (m s).2 !! l = Some a.

(** A computation hands nothing to [print_image] or [plot_image]. *)
Definition quiet {A} (m : M A) : Prop := forall s, trace (m s).2 = trace s.

(** What the debug step emits for the mask [fgmask]. *)
Definition debug_events (device : Z) (debug : option string) (fgmask : ndarray)
    : list event :=
  if decide (debug = Some "print") then
    [PrintImage fgmask (pretty device +:+ "_background_subtraction.png")]
  else if decide (debug = Some "plot") then [PlotImage fgmask "gray"]
  else [].

End Bs.

(** ** More concrete inputs *)

Module Samples.

(** A state in debug mode "print". *)
Definition printing (arrays : list ndarray) : state :=
  mk_state 0 (Some "print") (heap (state_of arrays)) empty_figure [].

(** Three mask samples for a field of four, and four samples in one
    column for a 2 x 2 field. *)
Definition short_mask : ndarray := mk_ndarray [3]%nat [255; 0; 255]%Z.
Definition column_mask : ndarray := mk_ndarray [4; 1]%nat [255; 0; 0; 255]%Z.

(** A contour through [(2, 2)] and [(4, 5)]: its bounding rectangle is
    [(2, 2, 3, 4)]. *)
Definition speck : ndarray := contour [(2, 2); (4, 5)]%Z.

(** Two vectors of different lengths. *)
Definition vec2 : ndarray := mk_ndarray [2]%nat [1; 2]%Z.
Definition vec3 : ndarray := mk_ndarray [3]%nat [1; 2; 3]%Z.

(** A frame that differs from [Demo.field] in one sample. *)
Definition moved : ndarray := arr2 [[200; -5]; [7; 151]]%Z.

(** Background subtraction run with the nearest-sample resize and the
    frame-difference subtractor, on the arrays at locations 1 and 2. *)
Definition subtract (arrays : list ndarray) (device : Z) (debug : option string)
    : Bs.outcome (Z * ndarray) * Bs.state :=
  Bs.background_subtraction Bs.nearest_resize (option ndarray) None Bs.frame_diff
    1%positive 2%positive device debug (Bs.state_of arrays).

End Samples.


(** ** Facts about the OpenCV model *)

Section Cv2Facts.

Lemma foldr_min_le (x0 : Z) (l : list Z) : (foldr Z.min x0 l <= x0)%Z.
Proof. induction l as [|a l IH]; cbn [foldr]; lia. Qed.

Lemma foldr_max_ge (x0 : Z) (l : list Z) : (x0 <= foldr Z.max x0 l)%Z.
Proof. induction l as [|a l IH]; cbn [foldr]; lia. Qed.

(** The rectangle of a contour never has a negative width or height. *)
Lemma boundingRect_nonneg (o : ndarray) (x y w h : Z) :
  Cv2.boundingRect o = (x, y, w, h) -> (0 <= w)%Z /\ (0 <= h)%Z.
Proof.
  unfold Cv2.boundingRect. destruct (Cv2.points (data o)) as [|[x0 y0] rest].
  - intros [= <- <- <- <-]. lia.
  - intros [= <- <- <- <-].
    pose proof (foldr_min_le x0 (map fst rest)). pose proof (foldr_max_ge x0 (map fst rest)).
    pose proof (foldr_min_le y0 (map snd rest)). pose proof (foldr_max_ge y0 (map snd rest)).
    lia.
Qed.

(** [int(w / 5)] is the floor of [w / 5] for the widths that occur. *)
Lemma int_div_floor (w : Z) : (0 <= w)%Z -> int_div w 5 = (w / 5)%Z.
Proof. intros H. unfold int_div. apply Z.quot_div_nonneg; lia. Qed.

Lemma copyMakeBorder_crop (a : ndarray) (x y w h : Z) :
  (0 <= w)%Z -> (0 <= h)%Z ->
  Cv2.copyMakeBorder (slice2 a y (y + h) x (x + w))
    (int_div h 5) (int_div h 5) (int_div w 5) (int_div w 5)
    Cv2.BORDER_CONSTANT (0, 0, 0)%Z
  = inr (padded_crop a x y w h).
Proof.
  intros Hw Hh. rewrite !int_div_floor by done.
  unfold Cv2.copyMakeBorder, padded_crop.
  assert (0 <= w / 5)%Z by (apply Z.div_pos; lia).
  assert (0 <= h / 5)%Z by (apply Z.div_pos; lia).
  destruct (Z.ltb_spec (h / 5) 0); [lia|].
  destruct (Z.ltb_spec (w / 5) 0); [lia|].
  done.
Qed.

End Cv2Facts.

(** ** Facts about the clamp *)

Section ClampFacts.

Lemma shape_clamped a b g : shape (clamped a b g) = shape g.
Proof. unfold clamped. now destruct (a =? 0)%Z. Qed.

Lemma ndim_clamped a b g : ndim (clamped a b g) = ndim g.
Proof. unfold ndim. now rewrite shape_clamped. Qed.

Lemma data_clamped a b g : data (clamped a b g) = map (clamp_sample a b) (data g).
Proof.
  unfold clamped, clamp_sample. destruct (a =? 0)%Z; cbn [assign_where data].
  - done.
  - now rewrite map_map.
Qed.

Lemma clamp_sample_idem a b v : clamp_sample a b (clamp_sample a b v) = clamp_sample a b v.
Proof.
  unfold clamp_sample. cbv zeta. rewrite !Z.gtb_ltb.
  ltb_cases.
Qed.

Lemma clamped_idem a b g : clamped a b (clamped a b g) = clamped a b g.
Proof.
  destruct g as [sh d].
  assert (forall x y : ndarray, shape x = shape y -> data x = data y -> x = y) as E
    by (intros [] []; cbn; congruence).
  apply E.
  - now rewrite !shape_clamped.
  - rewrite !data_clamped, map_map. apply map_ext. intros v. apply clamp_sample_idem.
Qed.

End ClampFacts.

(** ** Running the monad *)

Section Runs.

Lemma bind_run {A B} (m : M A) (f : A -> M B) (s : state) :
  (m ≫= f) s = match m s with
               | (Return a, s') => f a s'
               | (Raise e, s') => (Raise e, s')
               end.
Proof. done. Qed.

Lemma load_run (l : loc) (a : ndarray) (s : state) :
  heap s !! l = Some a -> load l s = (Return a, s).
Proof. unfold load. now intros ->. Qed.

Lemma update_run (l : loc) (f : ndarray -> ndarray) (a : ndarray) (s : state) :
  heap s !! l = Some a -> update l f s = (Return tt, set_heap s (<[l := f a]> (heap s))).
Proof. unfold update. now intros ->. Qed.

Lemma set_heap_set_heap s h h' : set_heap (set_heap s h) h' = set_heap s h'.
Proof. done. Qed.

Lemma clamp_range_run (l : loc) (min_value max_value : Z) (g : ndarray) (s : state) :
  heap s !! l = Some g ->
  clamp_range l min_value max_value s
  = (Return tt, set_heap s (<[l := clamped min_value max_value g]> (heap s))).
Proof.
  intros Hl. unfold clamp_range, clamped. rewrite bind_run.
  cbn [py_ne when]. rewrite (update_run _ _ _ _ Hl).
  destruct (Z.eqb_spec min_value 0) as [->|Hne]; cbn [negb when].
  - done.
  - erewrite update_run by (cbn; apply lookup_insert_eq).
    rewrite set_heap_set_heap. cbn [heap set_heap]. now rewrite insert_insert_eq.
Qed.

(** *** Computations that keep the store *)

Lemma keeps_bind {A B} (m : M A) (f : A -> M B) :
  keeps m -> (forall a, keeps (f a)) -> keeps (m ≫= f).
Proof.
  intros Hm Hf s l a Hl. rewrite bind_run. specialize (Hm s l a Hl).
  destruct (m s) as [[x|e] s']; cbn in *; [by apply Hf | done].
Qed.

Lemma keeps_pure {A} (m : M A) : (forall s, heap (m s).2 = heap s) -> keeps m.
Proof. intros H s l a Hl. now rewrite H. Qed.

Lemma keeps_ret {A} (a : A) : keeps (mret a).
Proof. now apply keeps_pure. Qed.

Lemma keeps_raise {A} (e : exn) : keeps (@raise A e).
Proof. now apply keeps_pure. Qed.

Lemma keeps_load l : keeps (load l).
Proof. apply keeps_pure. intros s. unfold load. now destruct (heap s !! l). Qed.

Lemma keeps_alloc a : keeps (alloc a).
Proof.
  intros s l x Hl. unfold alloc. cbn. rewrite lookup_insert_ne; [done|].
  intros <-. pose proof (is_fresh (dom (heap s))) as Hf.
  apply Hf, elem_of_dom. eauto.
Qed.

Lemma keeps_when b (m : M unit) : keeps m -> keeps (when b m).
Proof. destruct b; [done|]. intros _. apply keeps_ret. Qed.

Lemma keeps_lift_cv {A} (r : Cv2.error + A) : keeps (lift_cv r).
Proof. destruct r; [apply keeps_raise | apply keeps_ret]. Qed.

Lemma keeps_lift_ma {A} (r : Np.ma_error + A) : keeps (lift_ma r).
Proof. destruct r; [apply keeps_raise | apply keeps_ret]. Qed.

Lemma keeps_imshow x c : keeps (imshow x c).
Proof. now apply keeps_pure. Qed.

Lemma keeps_background_layer bg g : keeps (background_layer bg g).
Proof. unfold background_layer. repeat case_decide; now apply keeps_pure. Qed.

Lemma decorate_run im dpi axes path (s : state) :
  decorate im dpi axes path s
  = (Return (decorated (gcf s) axes),
     mk_state (device s) (debug s) (heap s) (decorated (gcf s) axes)
       (trace s ++ debug_events s (decorated (gcf s) axes) im dpi path)).
Proof.
  unfold decorate, debug_events, decorated. run_monad.
  destruct s as [dev dbg h f tr]. cbn [device debug heap gcf trace].
  destruct axes; repeat case_decide; cbn; rewrite ?app_nil_r; done.
Qed.

Lemma keeps_decorate im dpi axes path : keeps (decorate im dpi axes path).
Proof. apply keeps_pure. intros s. now rewrite decorate_run. Qed.

End Runs.

(** ** Running the source function *)

Section PseudocolorRuns.

Variable cv2_rectangle : ndarray -> Z * Z -> Z * Z -> Z * Z * Z -> Z -> ndarray.


Lemma shape_padded_crop (a b : ndarray) (x y w h : Z) :
  shape a = shape b -> shape (padded_crop a x y w h) = shape (padded_crop b x y w h).
Proof.
  intros Hs. destruct (nrows_ncols_same_shape a b Hs) as [Hr Hc].
  unfold padded_crop, slice2. cbn. now rewrite Hr, Hc.
Qed.

Lemma shape_restricted (g m : ndarray) (o : option ndarray) :
  shape m = shape g -> shape (restricted g m o).2 = shape (restricted g m o).1.
Proof.
  intros Hs. unfold restricted. destruct o as [o|]; [|done].
  destruct (Cv2.boundingRect o) as [[[x y] w] h]. cbn [fst snd].
  now apply shape_padded_crop.
Qed.

Lemma crop_to_object_run (gray_img mask obj : loc) (g m o : ndarray) (s : state) :
  heap s !! gray_img = Some g -> heap s !! mask = Some m -> heap s !! obj = Some o ->
  exists h', crop_to_object cv2_rectangle gray_img mask obj s
             = (Return (restricted g m (Some o)), set_heap s h').
Proof.
  intros Hg Hm Ho. unfold crop_to_object.
  rewrite bind_run, (load_run _ _ _ Hg). rewrite bind_run. cbn [alloc].
  set (fr := fresh (dom (heap s))).
  assert (forall l a, heap s !! l = Some a -> l <> fr) as Hfr.
  { intros l a Hl ->. apply (is_fresh (dom (heap s))), elem_of_dom. eauto. }
  set (s1 := set_heap s _).
  assert (forall l a, heap s !! l = Some a -> heap s1 !! l = Some a) as H1.
  { intros l a Hl. cbn. rewrite lookup_insert_ne; [done|]. intros <-. by eapply Hfr. }
  rewrite bind_run, (load_run _ _ _ (H1 _ _ Ho)).
  unfold restricted.
  destruct (Cv2.boundingRect o) as [[[x y] w] h] eqn:Hrect.
  destruct (boundingRect_nonneg _ _ _ _ _ Hrect) as [Hw Hh].
  rewrite bind_run. erewrite update_run by (cbn; apply lookup_insert_eq).
  set (s2 := set_heap s1 _).
  assert (forall l a, heap s !! l = Some a -> heap s2 !! l = Some a) as H2.
  { intros l a Hl. cbn. rewrite !lookup_insert_ne; [done| |]; intros <-; by eapply Hfr. }
  rewrite bind_run, (load_run _ _ _ (H2 _ _ Hg)).
  rewrite !copyMakeBorder_crop by done.
  rewrite bind_run. cbn [lift_cv]. run_monad.
  rewrite (load_run _ _ _ (H2 _ _ Hm)). rewrite copyMakeBorder_crop by done.
  eexists. subst s2 s1. rewrite set_heap_set_heap. reflexivity.
Qed.

Lemma keeps_crop_to_object (gray_img mask obj : loc) : keeps (crop_to_object cv2_rectangle gray_img mask obj).
Proof.
  intros s l a Hl. unfold crop_to_object.
  rewrite bind_run. destruct (load gray_img s) as [[g|e] s0] eqn:E.
  2:{ pose proof (keeps_load gray_img s l a Hl) as K. now rewrite E in K. }
  assert (s0 = s) as -> by (unfold load in E; destruct (heap s !! gray_img); congruence).
  rewrite bind_run. cbn [alloc].
  set (fr := fresh (dom (heap s))).
  assert (l <> fr) as Hfr.
  { intros ->. apply (is_fresh (dom (heap s))), elem_of_dom. eauto. }
  set (s1 := set_heap s _).
  assert (heap s1 !! l = Some a) as H1 by (cbn; now rewrite lookup_insert_ne).
  rewrite bind_run. destruct (load obj s1) as [[o|e] s0] eqn:E1.
  2:{ pose proof (keeps_load obj s1 l a H1) as K. now rewrite E1 in K. }
  assert (s0 = s1) as -> by (unfold load in E1; destruct (heap s1 !! obj); congruence).
  destruct (Cv2.boundingRect o) as [[[x y] w] h].
  rewrite bind_run. erewrite update_run by (cbn; apply lookup_insert_eq).
  set (s2 := set_heap s1 _).
  assert (heap s2 !! l = Some a) as H2 by (cbn; now rewrite !lookup_insert_ne).
  revert H2. generalize s2. clear. intros s2 H2.
  match goal with
  | |- heap (?k s2).2 !! l = Some a => enough (keeps k) as K by (by apply K)
  end.
  repeat (apply keeps_bind; [first [apply keeps_load | apply keeps_lift_cv]|]; intros ?).
  apply keeps_ret.
Qed.

Lemma background_layer_run (bg : string) (g : ndarray) (s : state) :
  supported bg -> background_layer bg g s = (Return (background_of bg g), s).
Proof.
  intros Hbg. unfold background_layer, background_of.
  repeat case_decide; try done. destruct Hbg as [?|[?|?]]; done.
Qed.

Lemma background_layer_unsupported (bg : string) (g : ndarray) (s : state) :
  ~ supported bg ->
  background_layer bg g s
  = (Raise (FatalError ("Background type " +:+ bg
       +:+ " is not supported. Please use 'white', 'black', or 'image'.")), s).
Proof.
  intros Hbg. unfold background_layer, supported in *.
  repeat case_decide; try done; exfalso; apply Hbg; auto.
Qed.

Lemma after_clamp_lookup (s : state) (gray_img : loc) (a b : Z) (g : ndarray) :
  heap s !! gray_img = Some g ->
  after_clamp s gray_img a b = <[gray_img := clamped a b g]> (heap s).
Proof. unfold after_clamp. now intros ->. Qed.

(** The statements up to the clamp, on a two-dimensional field. *)
Lemma enter_run {A} (gray_img : loc) (a b : Z) (k : M A) (s : state) (g : ndarray) :
  heap s !! gray_img = Some g -> ndim g = 2%nat ->
  (incr_device;;
   g0 ← load gray_img;
   when (negb (ndim g0 =? 2)%nat) (fatal_error "Image must be grayscale.");;
   clamp_range gray_img a b;;
   k) s
  = k (mk_state (device s + 1) (debug s) (<[gray_img := clamped a b g]> (heap s))
         (gcf s) (trace s)).
Proof.
  intros Hg H2.
  rewrite bind_run; cbn [incr_device].
  rewrite bind_run; erewrite load_run by exact Hg.
  rewrite bind_run, H2; cbn [Nat.eqb negb when]. run_monad.
  erewrite clamp_range_run by exact Hg. done.
Qed.

Section Call.

Variables (gray_img : loc) (mask : option loc) (cmap : option string)
  (background : string) (min_value max_value : Z) (obj : option loc)
  (dpi : option Z) (axes : bool) (path : string).

Local Abbreviation call :=
  (pseudocolor cv2_rectangle gray_img mask cmap background min_value max_value obj dpi axes path).

Lemma pseudocolor_not_grayscale (s : state) (g : ndarray) :
  heap s !! gray_img = Some g -> ndim g <> 2%nat ->
  call s = (Raise (FatalError "Image must be grayscale."),
            mk_state (device s + 1) (debug s) (heap s) (gcf s) (trace s)).
Proof.
  intros Hg H2. unfold pseudocolor.
  rewrite bind_run; cbn [incr_device].
  rewrite bind_run. erewrite load_run by exact Hg. rewrite bind_run.
  destruct (Nat.eqb_spec (ndim g) 2) as [|_]; [done|]. done.
Qed.

(** What a call does to the arrays of the caller: the field is clamped
    in place once it has passed the shape check, and nothing else
    changes. *)
Lemma pseudocolor_heap (s : state) (l : loc) (a : ndarray) :
  heap s !! l = Some a ->
  heap (call s).2 !! l
  = Some (if decide (l = gray_img /\ ndim a = 2%nat)
          then clamped min_value max_value a else a).
Proof.
  intros Hl. destruct (heap s !! gray_img) as [g|] eqn:Hg.
  2:{ unfold pseudocolor. rewrite bind_run; cbn [incr_device]. rewrite bind_run.
      unfold load at 1. cbn [heap]. rewrite Hg. cbn.
      rewrite decide_False; [done|]. intros [-> _]. congruence. }
  destruct (decide (ndim g = 2%nat)) as [H2|H2].
  2:{ rewrite (pseudocolor_not_grayscale s g Hg H2). cbn.
      rewrite decide_False; [done|]. intros [-> ?]. congruence. }
  unfold pseudocolor. rewrite (enter_run _ _ _ _ _ _ Hg H2).
  match goal with
  | |- heap (?k ?s1).2 !! l = _ =>
      enough (keeps k) as K;
      [ rewrite (K s1 l (if decide (l = gray_img /\ ndim a = 2%nat)
                         then clamped min_value max_value a else a)); [done|] |]
  end.
  - cbn [heap set_heap]. destruct (decide (l = gray_img)) as [->|Hne].
    + rewrite lookup_insert_eq. rewrite decide_True; [congruence|]. split; congruence.
    + rewrite lookup_insert_ne by done. rewrite decide_False; [done|]. tauto.
  - destruct mask as [m|].
    + apply keeps_bind.
      { destruct obj as [o|]; [apply keeps_crop_to_object|].
        repeat (apply keeps_bind; [apply keeps_load|]; intros ?). apply keeps_ret. }
      intros [gray msk]. apply keeps_bind; [apply keeps_lift_ma|]. intros ?.
      apply keeps_bind; [apply keeps_background_layer|]. intros [? ?].
      repeat (apply keeps_bind; [apply keeps_imshow|]; intros ?).
      apply keeps_decorate.
    + apply keeps_bind; [apply keeps_load|]. intros ?.
      apply keeps_bind; [apply keeps_imshow|]. intros ?. apply keeps_decorate.
Qed.

End Call.

(** The arrays behind [gray_img] and [mask] at the point where the mask is
    applied. *)
Lemma restriction_run (gray_img mask : loc) (obj : option loc) (s : state)
    (gc mk : ndarray) (o : option ndarray) :
  heap s !! gray_img = Some gc -> heap s !! mask = Some mk -> denotes (heap s) obj o ->
  exists s',
    match obj with
    | Some obj => crop_to_object cv2_rectangle gray_img mask obj
    | None => g ← load gray_img; m ← load mask; mret (g, m)
    end s = (Return (restricted gc mk o), s')
    /\ gcf s' = gcf s /\ device s' = device s /\ debug s' = debug s /\ trace s' = trace s.
Proof.
  intros Hg Hm Ho. destruct obj as [ol|], o as [oa|]; try done; cbn in Ho.
  - destruct (crop_to_object_run _ _ _ _ _ _ _ Hg Hm Ho) as [h' R].
    exists (set_heap s h'). now rewrite R.
  - exists s. rewrite bind_run, (load_run _ _ _ Hg), bind_run, (load_run _ _ _ Hm). done.
Qed.

Lemma ma_array_same_shape (d m : ndarray) :
  shape m = shape d ->
  ma_array d (invert (astype_bool m)) = inr (mk_masked d (bits (invert (astype_bool m)))).
Proof. intros Hs. unfold ma_array. cbn [bshape invert astype_bool]. now rewrite decide_True. Qed.

Section MaskedCall.

Variables (gray_img mask : loc) (cmap : option string)
  (background : string) (min_value max_value : Z) (obj : option loc)
  (dpi : option Z) (axes : bool) (path : string).
Variables (s : state) (g mk : ndarray) (o : option ndarray).

Hypothesis field_bound : heap s !! gray_img = Some g.
Hypothesis field_2d : ndim g = 2%nat.
Hypothesis mask_bound : after_clamp s gray_img min_value max_value !! mask = Some mk.
Hypothesis obj_bound : denotes (after_clamp s gray_img min_value max_value) obj o.
Hypothesis same_shape : shape mk = shape g.

Local Abbreviation call :=
  (pseudocolor cv2_rectangle gray_img (Some mask) cmap background min_value max_value
     obj dpi axes path s).

Local Abbreviation gray := (restricted (clamped min_value max_value g) mk o).1.
Local Abbreviation msk := (restricted (clamped min_value max_value g) mk o).2.

Lemma pseudocolor_masked_run :
  supported background ->
  call.1 = Return (composite (gcf s) background gray msk cmap axes)
  /\ gcf call.2 = composite (gcf s) background gray msk cmap axes.
Proof.
  intros Hbg. unfold pseudocolor. rewrite (enter_run _ _ _ _ _ _ field_bound field_2d).
  rewrite (after_clamp_lookup _ _ _ _ _ field_bound) in mask_bound, obj_bound.
  set (s1 := mk_state _ _ _ _ _).
  assert (heap s1 !! gray_img = Some (clamped min_value max_value g)) as Hg1
    by (cbn; apply lookup_insert_eq).
  destruct (restriction_run gray_img mask obj s1 _ mk o Hg1 mask_bound obj_bound)
    as (s2 & R & Hf & Hd & Hb & Ht).
  rewrite bind_run, R.
  assert (shape msk = shape gray) as Hsh
    by (apply shape_restricted; now rewrite shape_clamped).
  destruct (restricted _ mk o) as [gr ms]. cbn [fst snd] in Hsh |- *.
  rewrite bind_run, (ma_array_same_shape _ _ Hsh).
  cbn [lift_ma]. run_monad.
  rewrite (background_layer_run _ _ _ Hbg).
  destruct (background_of background gr) as [b c] eqn:Eb.
  rewrite !decorate_run. cbn [fst snd gcf].
  unfold composite, background_image, overlay_image. rewrite Eb, Hf.
  subst s1. cbn. rewrite <- !app_assoc. done.
Qed.

Lemma pseudocolor_unsupported_run :
  ~ supported background ->
  call.1 = Raise (FatalError ("Background type " +:+ background
             +:+ " is not supported. Please use 'white', 'black', or 'image'."))
  /\ gcf call.2 = gcf s.
Proof.
  intros Hbg. unfold pseudocolor. rewrite (enter_run _ _ _ _ _ _ field_bound field_2d).
  rewrite (after_clamp_lookup _ _ _ _ _ field_bound) in mask_bound, obj_bound.
  set (s1 := mk_state _ _ _ _ _).
  assert (heap s1 !! gray_img = Some (clamped min_value max_value g)) as Hg1
    by (cbn; apply lookup_insert_eq).
  destruct (restriction_run gray_img mask obj s1 _ mk o Hg1 mask_bound obj_bound)
    as (s2 & R & Hf & Hd & Hb & Ht).
  rewrite bind_run, R.
  assert (shape msk = shape gray) as Hsh
    by (apply shape_restricted; now rewrite shape_clamped).
  destruct (restricted _ mk o) as [gr ms]. cbn [fst snd] in Hsh |- *.
  rewrite bind_run, (ma_array_same_shape _ _ Hsh).
  cbn [lift_ma]. run_monad.
  rewrite (background_layer_unsupported _ _ _ Hbg). cbn [fst snd]. now rewrite Hf.
Qed.

End MaskedCall.

(** Without a mask the clamped field is shown alone; the background
    selector is not looked at. *)
Lemma pseudocolor_unmasked_run (gray_img : loc) (cmap : option string) (background : string)
    (min_value max_value : Z) (obj : option loc) (dpi : option Z) (axes : bool)
    (path : string) (s : state) (g : ndarray) :
  heap s !! gray_img = Some g -> ndim g = 2%nat ->
  (pseudocolor cv2_rectangle gray_img None cmap background min_value max_value
     obj dpi axes path s).1
  = Return (decorated
              (Plt.mk_figure
                 (Plt.images (gcf s)
                  ++ [Plt.mk_image (Plt.Plain (clamped min_value max_value g)) cmap])
                 (Plt.title (gcf s)) (Plt.colorbars (gcf s))
                 (Plt.xticks (gcf s)) (Plt.yticks (gcf s)))
              axes).
Proof.
  intros Hg H2. unfold pseudocolor. rewrite (enter_run _ _ _ _ _ _ Hg H2).
  rewrite bind_run. erewrite load_run by (cbn; apply lookup_insert_eq).
  run_monad. now rewrite decorate_run.
Qed.

Lemma raises_bind {A B} (m : M A) (f : A -> M B) :
  (forall a, raises (f a)) -> raises (m ≫= f).
Proof.
  intros Hf s. rewrite bind_run. destruct (m s) as [[a|e] s']; [apply Hf | by exists e].
Qed.

Lemma pseudocolor_unsupported_raises (gray_img mask : loc) (cmap : option string)
    (background : string) (min_value max_value : Z) (obj : option loc) (dpi : option Z)
    (axes : bool) (path : string) :
  ~ supported background ->
  raises (pseudocolor cv2_rectangle gray_img (Some mask) cmap background
            min_value max_value obj dpi axes path).
Proof.
  intros Hbg. unfold pseudocolor.
  do 4 (apply raises_bind; intros ?).
  apply raises_bind. intros [gray msk]. apply raises_bind. intros ?.
  intros s. rewrite bind_run, (background_layer_unsupported _ _ _ Hbg). eauto.
Qed.

End PseudocolorRuns.

(** ** Facts about cropping, padding and stacking *)

Section CropFacts.

Lemma lookup_map {A B} (f : A -> B) (l : list A) (k : nat) :
  map f l !! k = f <$> (l !! k).
Proof. revert k. induction l as [|a l IH]; intros [|k]; cbn; auto. Qed.

Variables (a : ndarray) (x y w h : Z).

Local Abbreviation crop := (slice2 a y (y + h) x (x + w)).
Local Abbreviation oy := (Z.to_nat (h / 5)).
Local Abbreviation ox := (Z.to_nat (w / 5)).

Lemma padded_crop_shape :
  shape (padded_crop a x y w h) = [nrows crop + oy + oy; ncols crop + ox + ox]%nat.
Proof. done. Qed.

Lemma padded_crop_interior (i j : nat) :
  (i < nrows crop)%nat -> (j < ncols crop)%nat ->
  get2 (padded_crop a x y w h) (oy + i) (ox + j) = get2 crop i j.
Proof.
  intros Hi Hj. unfold padded_crop. cbv zeta.
  rewrite get2_tabulate2 by lia.
  destruct (Nat.leb_spec oy (oy + i)); [|lia].
  destruct (Nat.ltb_spec (oy + i) (oy + nrows crop)); [|lia].
  destruct (Nat.leb_spec ox (ox + j)); [|lia].
  destruct (Nat.ltb_spec (ox + j) (ox + ncols crop)); [|lia].
  cbn [andb]. f_equal; lia.
Qed.

Lemma padded_crop_border (i j : nat) :
  (i < nrows crop + oy + oy)%nat -> (j < ncols crop + ox + ox)%nat ->
  ~ ((oy <= i < oy + nrows crop)%nat /\ (ox <= j < ox + ncols crop)%nat) ->
  get2 (padded_crop a x y w h) i j = 0%Z.
Proof.
  intros Hi Hj Hout. unfold padded_crop. cbv zeta.
  rewrite get2_tabulate2 by lia.
  destruct (Nat.leb_spec oy i); [|done].
  destruct (Nat.ltb_spec i (oy + nrows crop)); [|done].
  destruct (Nat.leb_spec ox j); [|done].
  destruct (Nat.ltb_spec j (ox + ncols crop)); [|done].
  lia.
Qed.

(** The window that the padding surrounds is the crop itself. *)
Lemma padded_crop_window :
  slice2 (padded_crop a x y w h)
    (Z.of_nat oy) (Z.of_nat (oy + nrows crop)) (Z.of_nat ox) (Z.of_nat (ox + ncols crop))
  = crop.
Proof.
  assert (nrows (padded_crop a x y w h) = nrows crop + oy + oy)%nat as Hr by done.
  assert (ncols (padded_crop a x y w h) = ncols crop + ox + ox)%nat as Hc by done.
  unfold slice2 at 1. rewrite Hr, Hc.
  rewrite !slice_bound_inside by lia. rewrite !Nat2Z.id.
  replace (oy + nrows crop - oy)%nat with (nrows crop) by lia.
  replace (ox + ncols crop - ox)%nat with (ncols crop) by lia.
  transitivity (tabulate2 (nrows crop) (ncols crop) (get2 crop)).
  - apply tabulate2_ext. intros i j Hi Hj. now apply padded_crop_interior.
  - unfold slice2. rewrite nrows_tabulate2, ncols_tabulate2.
    apply tabulate2_ext. intros i j Hi Hj. now rewrite get2_tabulate2.
Qed.

(** The samples of the crop are those of the window of [a]. *)
Lemma crop_sample (i j : nat) :
  (i < nrows crop)%nat -> (j < ncols crop)%nat ->
  get2 crop i j = get2 a (slice_bound y (nrows a) + i) (slice_bound x (ncols a) + j).
Proof. intros Hi Hj. unfold slice2 in *. now rewrite get2_tabulate2. Qed.

(** A rectangle inside the array is cropped whole. *)
Lemma crop_inside :
  (0 <= x)%Z -> (0 <= y)%Z -> (0 <= w)%Z -> (0 <= h)%Z ->
  (x + w <= Z.of_nat (ncols a))%Z -> (y + h <= Z.of_nat (nrows a))%Z ->
  nrows crop = Z.to_nat h /\ ncols crop = Z.to_nat w
  /\ slice_bound y (nrows a) = Z.to_nat y /\ slice_bound x (ncols a) = Z.to_nat x.
Proof.
  intros. unfold slice2. rewrite nrows_tabulate2, ncols_tabulate2.
  rewrite !slice_bound_inside by lia. lia.
Qed.

End CropFacts.

Section StackFacts.

(** On top of any stack, a plain image covered by a masked image: the
    masked image is seen where its mask bit is off, the plain one
    elsewhere. *)
Lemma visible_two_layers (below : list Plt.axes_image) (bkg ovl : Plt.axes_image) (i j : nat) :
  Plt.paints bkg i j = true ->
  Plt.visible (below ++ [bkg; ovl]) i j = Some (if Plt.paints ovl i j then ovl else bkg).
Proof.
  intros Hb. unfold Plt.visible. rewrite filter_app.
  rewrite (filter_cons_True _ bkg) by done.
  destruct (Plt.paints ovl i j) eqn:Ho.
  - rewrite (filter_cons_True _ ovl) by done. rewrite filter_nil.
    change [bkg; ovl] with ([bkg] ++ [ovl]). now rewrite app_assoc, last_snoc.
  - rewrite (filter_cons_False _ ovl) by (rewrite Ho; done). rewrite filter_nil.
    now rewrite last_snoc.
Qed.

(** The mask bit the overlay carries at a pixel. *)
Lemma overlay_paints (gray msk : ndarray) (cmap : option string) (i j : nat) :
  wf msk -> shape msk = shape gray -> ndim gray = 2%nat ->
  (i < nrows gray)%nat -> (j < ncols gray)%nat ->
  Plt.paints (overlay_image gray msk cmap) i j = negb (get2 msk i j =? 0)%Z.
Proof.
  intros Hwf Hs H2 Hi Hj. unfold Plt.paints, overlay_image.
  cbn [Plt.im_data ma_data ma_mask bits invert astype_bool].
  destruct (Nat.ltb_spec i (nrows gray)); [|lia].
  destruct (Nat.ltb_spec j (ncols gray)); [|lia]. cbn [andb].
  destruct (nrows_ncols_same_shape _ _ Hs) as [Hr Hc].
  unfold get2. rewrite Hc.
  assert (i * ncols gray + j < length (data msk))%nat as Hlt.
  { rewrite Hwf, Hs. unfold ndim in H2. unfold nrows, ncols in *.
    destruct (shape gray) as [|r [|c [|]]]; cbn in *; try done. nia. }
  rewrite (nth_indep _ false (negb (negb (0 =? 0)%Z))). 2:{ rewrite !length_map. lia. }
  rewrite (map_nth negb), (map_nth (fun s => negb (s =? 0)%Z)). now rewrite negb_involutive.
Qed.

End StackFacts.

(** ** The range clamp *)

Section Clamp.

Variable cv2_rectangle : ndarray -> Z * Z -> Z * Z -> Z * Z * Z -> Z -> ndarray.

Variables (gray_img : loc) (mask : option loc) (cmap : option string)
  (background : string) (min_value max_value : Z) (obj : option loc)
  (dpi : option Z) (axes : bool) (path : string).

Local Abbreviation call :=
  (pseudocolor cv2_rectangle gray_img mask cmap background min_value max_value
     obj dpi axes path).

(** The dtype of each array.  The embedding stores samples as integers
    and does not track dtypes; statements about the values the clamp stores
    take the bounds to be values the field's dtype holds. *)
Variable dtype_of : ndarray -> dtype.

(** C1, as the code has it.  For a two-dimensional field and bounds
    [min_value <= max_value] that the field's dtype can hold, after any call
    the caller's field holds: [max_value] wherever the sample was above
    [max_value], on every call (also with [max_value = 255]); [min_value]
    wherever the sample was below [min_value], but only when [min_value] is
    not 0; with [min_value = 0] the lower comparison is skipped and a sample
    not above [max_value] is left as it was, negative or not. *)
Theorem C1_clamp_as_guarded (s : state) (g : ndarray) :
  heap s !! gray_img = Some g -> ndim g = 2%nat -> (min_value <= max_value)%Z ->
  fits (dtype_of g) min_value -> fits (dtype_of g) max_value ->
  exists g',
    heap (call s).2 !! gray_img = Some g'
    /\ shape g' = shape g
    /\ forall k v, data g !! k = Some v ->
         ((v > max_value)%Z -> data g' !! k = Some max_value)
         /\ (min_value <> 0%Z -> (v < min_value)%Z -> data g' !! k = Some min_value)
         /\ (min_value = 0%Z -> (v <= max_value)%Z -> data g' !! k = Some v)
         /\ ((min_value <= v <= max_value)%Z -> data g' !! k = Some v).
Proof.
  intros Hg H2 Hle _ _. exists (clamped min_value max_value g).
  split; [|split].
  - rewrite (pseudocolor_heap _ _ _ _ _ _ _ _ _ _ _ _ _ _ Hg).
    now rewrite decide_True.
  - apply shape_clamped.
  - intros k v Hk. rewrite data_clamped, lookup_map, Hk. cbn [fmap option_fmap option_map].
    unfold clamp_sample. cbv zeta. rewrite !Z.gtb_ltb.
    repeat split; intros; f_equal; ltb_cases.
Qed.

(** C9.  Clamping is idempotent: with bounds [a <= b], a second call on
    the field the first call has clamped leaves that field as the first
    call left it. *)
Theorem C9_clamp_idempotent (s : state) (g : ndarray) :
  (min_value <= max_value)%Z ->
  heap s !! gray_img = Some g -> ndim g = 2%nat ->
  exists g1,
    heap (call s).2 !! gray_img = Some g1
    /\ g1 = clamped min_value max_value g
    /\ heap (call (call s).2).2 !! gray_img = Some g1.
Proof.
  intros _ Hg H2. exists (clamped min_value max_value g).
  assert (heap (call s).2 !! gray_img = Some (clamped min_value max_value g)) as H1.
  { rewrite (pseudocolor_heap _ _ _ _ _ _ _ _ _ _ _ _ _ _ Hg). now rewrite decide_True. }
  split; [done|]. split; [done|].
  rewrite (pseudocolor_heap _ _ _ _ _ _ _ _ _ _ _ _ _ _ H1).
  rewrite decide_True by (now rewrite ndim_clamped). now rewrite clamped_idem.
Qed.

(** C4.  A field that is not two-dimensional makes the call fail with the
    fatal error "Image must be grayscale." before anything is built: the
    figure, the arrays and the debug output are as they were. *)
Theorem C4_not_grayscale_is_fatal (s : state) (g : ndarray) :
  heap s !! gray_img = Some g -> ndim g <> 2%nat ->
  (call s).1 = Raise (FatalError "Image must be grayscale.")
  /\ gcf (call s).2 = gcf s
  /\ heap (call s).2 = heap s
  /\ trace (call s).2 = trace s.
Proof. intros Hg H2. now rewrite (pseudocolor_not_grayscale _ _ _ _ _ _ _ _ _ _ _ _ _ Hg H2). Qed.

End Clamp.

(** ** Calls with a mask *)

Section Masked.

Variable cv2_rectangle : ndarray -> Z * Z -> Z * Z -> Z * Z * Z -> Z -> ndarray.

Variables (gray_img mask : loc) (cmap : option string)
  (min_value max_value : Z) (dpi : option Z) (axes : bool) (path : string).

Local Abbreviation call background obj :=
  (pseudocolor cv2_rectangle gray_img (Some mask) cmap background min_value max_value
     obj dpi axes path).


Lemma shape_background_of (bg : string) (gray : ndarray) :
  shape (background_of bg gray).1 = shape gray.
Proof. unfold background_of. repeat case_decide; done. Qed.



(** C2, as the code has it.  With a mask supplied, a background selector
    other than "image", "white" and "black" never lets the call return a
    composite; on a two-dimensional field with a mask of the same shape,
    and an object, if one is given, whose rectangle cuts a window with
    samples out of the field, the call raises the fatal error whose message
    names the selector, and the current figure is left as it was.  Without
    a mask the selector is not looked at: the call on a two-dimensional
    field returns a figure. *)
Theorem C2_unsupported_background_with_mask (background : string) (obj : option loc)
    (s : state) :
  ~ supported background ->
  (forall fig, (call background obj s).1 <> Return fig)
  /\ (forall g mk o,
        heap s !! gray_img = Some g -> ndim g = 2%nat ->
        after_clamp s gray_img min_value max_value !! mask = Some mk ->
        denotes (after_clamp s gray_img min_value max_value) obj o ->
        shape mk = shape g ->
        croppable_if_given g o ->
        (call background obj s).1
        = Raise (FatalError ("Background type " +:+ background
                   +:+ " is not supported. Please use 'white', 'black', or 'image'."))
        /\ gcf (call background obj s).2 = gcf s)
  /\ (forall g,
        heap s !! gray_img = Some g -> ndim g = 2%nat ->
        exists fig,
          (pseudocolor cv2_rectangle gray_img None cmap background min_value max_value
             obj dpi axes path s).1 = Return fig).
Proof.
  intros Hbg. split; [|split].
  - intros fig Hfig.
    destruct (pseudocolor_unsupported_raises cv2_rectangle gray_img mask cmap background
                min_value max_value obj dpi axes path Hbg s) as [e He].
    congruence.
  - intros g mk o Hg H2 Hm Ho Hs _. eapply pseudocolor_unsupported_run; eauto.
  - intros g Hg H2. eexists. apply (pseudocolor_unmasked_run _ _ _ _ _ _ _ _ _ _ _ _ Hg H2).
Qed.



(** The dtype of each array, which the embedding does not track. *)
Variable dtype_of : ndarray -> dtype.

Lemma get2_clamped (a b : Z) (g : ndarray) (i j : nat) :
  wf g -> ndim g = 2%nat -> (i < nrows g)%nat -> (j < ncols g)%nat ->
  get2 (clamped a b g) i j = clamp_sample a b (get2 g i j).
Proof.
  intros Hwf H2 Hi Hj. unfold get2.
  assert (ncols (clamped a b g) = ncols g) as -> by (unfold ncols; now rewrite shape_clamped).
  assert (i * ncols g + j < length (data g))%nat as Hlt.
  { rewrite Hwf. unfold ndim in H2. unfold nrows, ncols in *.
    destruct (shape g) as [|r [|c [|]]]; cbn in *; try done. nia. }
  rewrite data_clamped.
  rewrite (nth_indep _ 0%Z (clamp_sample a b 0)) by (rewrite length_map; lia).
  apply map_nth.
Qed.

(** C6.  With a mask and an object whose bounding rectangle
    [(x, y, w, h)] cuts a window with samples out of the field, for bounds
    the field's dtype can hold: the call returns a figure whose top image
    is the overlay; the overlay's array has the window's rows and columns
    plus [h/5] rows above and below and [w/5] columns on either side; and
    the sample at row [i], column [j] of the window [field[y:y+h, x:x+w]]
    of the caller's field, clamped, is the sample [h/5] rows and [w/5]
    columns further in.  The clamp comes first: the caller's field, which
    was cropped, holds the clamped field. *)
Theorem C6_interior_is_window_of_clamped_field (background : string) (obj : loc)
    (s : state) (g mk oa : ndarray) (x y w h : Z) :
  heap s !! gray_img = Some g -> ndim g = 2%nat -> wf g ->
  after_clamp s gray_img min_value max_value !! mask = Some mk ->
  after_clamp s gray_img min_value max_value !! obj = Some oa ->
  shape mk = shape g -> supported background ->
  Cv2.boundingRect oa = (x, y, w, h) -> croppable g oa ->
  fits (dtype_of g) min_value -> fits (dtype_of g) max_value ->
  let clamped_field := clamped min_value max_value g in
  let window := slice2 clamped_field y (y + h) x (x + w) in
  let row0 := slice_bound y (nrows g) in
  let col0 := slice_bound x (ncols g) in
  let rows := (slice_bound (y + h) (nrows g) - row0)%nat in
  let cols := (slice_bound (x + w) (ncols g) - col0)%nat in
  let top := Z.to_nat (h / 5) in
  let left := Z.to_nat (w / 5) in
  exists fig out hidden,
    (call background (Some obj) s).1 = Return fig
    /\ last (Plt.images fig) = Some (Plt.mk_image (Plt.Masked (mk_masked out hidden)) cmap)
    /\ shape out = [top + rows + top; left + cols + left]%nat
    /\ (forall i j, (i < rows)%nat -> (j < cols)%nat ->
          get2 out (top + i) (left + j)
          = clamp_sample min_value max_value (get2 g (row0 + i) (col0 + j)))
    /\ slice2 out (h / 5) (h / 5 + Z.of_nat (nrows window))
                  (w / 5) (w / 5 + Z.of_nat (ncols window)) = window
    /\ heap (call background (Some obj) s).2 !! gray_img = Some clamped_field.
Proof.
  intros Hg H2 Hwf Hm Ho Hs Hbg Hrect _ _ _ clamped_field window row0 col0 rows cols top left.
  destruct (pseudocolor_masked_run cv2_rectangle gray_img mask cmap background
              min_value max_value (Some obj) dpi axes path s g mk (Some oa)
              Hg H2 Hm Ho Hs Hbg) as [R _].
  destruct (boundingRect_nonneg _ _ _ _ _ Hrect) as [Hw Hh].
  revert R. unfold restricted. rewrite Hrect. cbn [fst snd]. intros R.
  assert (nrows clamped_field = nrows g /\ ncols clamped_field = ncols g) as [Hnr Hnc]
    by (unfold clamped_field, nrows, ncols; now rewrite shape_clamped).
  assert (nrows window = rows /\ ncols window = cols) as [Hrows Hcols].
  { unfold window, slice2. rewrite nrows_tabulate2, ncols_tabulate2, Hnr, Hnc. done. }
  eexists _, (padded_crop clamped_field x y w h), _.
  split; [exact R|]. split; [|split; [|split; [|split]]].
  - unfold composite, decorated. cbn [Plt.images].
    change [?b; ?o] with ([b] ++ [o]). rewrite app_assoc, last_snoc. reflexivity.
  - rewrite padded_crop_shape. fold window. rewrite Hrows, Hcols.
    f_equal; [lia|]. f_equal. lia.
  - intros i j Hi Hj.
    rewrite padded_crop_interior by (fold window; lia).
    rewrite crop_sample by (fold window; lia). rewrite Hnr, Hnc.
    pose proof (slice_bound_le (y + h) (nrows g)).
    pose proof (slice_bound_le (x + w) (ncols g)).
    apply get2_clamped; try done; unfold rows, cols, row0, col0 in *; lia.
  - pose proof (padded_crop_window clamped_field x y w h) as W.
    fold window in W. rewrite <- W at 3. f_equal.
    all: rewrite ?Nat2Z.inj_add, Z2Nat.id; [done | apply Z.div_pos; lia].
  - rewrite (pseudocolor_heap _ _ _ _ _ _ _ _ _ _ _ _ _ _ Hg). now rewrite decide_True.
Qed.

End Masked.

(** ** The region restriction *)

Section Crop.

Variable cv2_rectangle : ndarray -> Z * Z -> Z * Z -> Z * Z * Z -> Z -> ndarray.

Variables (gray_img mask obj : loc) (s : state) (g mk oa : ndarray) (x y w h : Z).

Lemma padded_crop_padded_by (a : ndarray) :
  padded_by (Z.to_nat (h / 5)) (Z.to_nat (w / 5)) (slice2 a y (y + h) x (x + w))
    (padded_crop a x y w h).
Proof.
  split; [|split].
  - rewrite padded_crop_shape. f_equal; [lia|]. f_equal. lia.
  - intros i j Hi Hj. now apply padded_crop_interior.
  - intros i j Hi Hj Hout.
    assert (nrows (padded_crop a x y w h)
            = nrows (slice2 a y (y + h) x (x + w)) + Z.to_nat (h / 5) + Z.to_nat (h / 5))%nat
      as Hr by done.
    assert (ncols (padded_crop a x y w h)
            = ncols (slice2 a y (y + h) x (x + w)) + Z.to_nat (w / 5) + Z.to_nat (w / 5))%nat
      as Hc by done.
    apply padded_crop_border; [lia | lia | done].
Qed.

(** C7.  For a two-dimensional field and mask out of which the bounding
    rectangle [(x, y, w, h)] cuts windows with samples: the field and the
    mask are cropped to the rectangle and then surrounded by the same
    border, [floor(h/5)] rows above and below and [floor(w/5)] columns left
    and right, which is what [int(h / 5)] and [int(w / 5)] compute; every
    sample of the border is zero. *)
Theorem C7_padding_is_a_fifth_of_zeros :
  heap s !! gray_img = Some g -> heap s !! mask = Some mk -> heap s !! obj = Some oa ->
  ndim g = 2%nat -> ndim mk = 2%nat ->
  Cv2.boundingRect oa = (x, y, w, h) ->
  croppable g oa -> croppable mk oa ->
  exists gray msk h',
    crop_to_object cv2_rectangle gray_img mask obj s = (Return (gray, msk), set_heap s h')
    /\ int_div h 5 = (h / 5)%Z /\ int_div w 5 = (w / 5)%Z
    /\ padded_by (Z.to_nat (h / 5)) (Z.to_nat (w / 5)) (slice2 g y (y + h) x (x + w)) gray
    /\ padded_by (Z.to_nat (h / 5)) (Z.to_nat (w / 5)) (slice2 mk y (y + h) x (x + w)) msk.
Proof.
  intros field_bound mask_bound obj_bound _ _ rect _ _.
  destruct (crop_to_object_run cv2_rectangle _ _ _ _ _ _ _ field_bound mask_bound obj_bound)
    as [h' R].
  destruct (boundingRect_nonneg _ _ _ _ _ rect) as [Hw Hh].
  revert R. unfold restricted. rewrite rect. intros R.
  exists (padded_crop g x y w h), (padded_crop mk x y w h), h'.
  split; [exact R|].
  split; [now apply int_div_floor|]. split; [now apply int_div_floor|].
  split; apply padded_crop_padded_by.
Qed.

(** C10, as the code has it.  When the field is two-dimensional, the mask
    has its shape and the bounding rectangle cuts a window with samples
    out of it, the cropped and padded field and mask have the same shape.
    That shape is [h + 2*floor(h/5)] by [w + 2*floor(w/5)] when the
    bounding rectangle lies inside the field; a rectangle that sticks out
    is cut at the field's edge by the slice before the padding is added. *)
Theorem C10_crop_and_pad_keep_shapes_equal :
  heap s !! gray_img = Some g -> heap s !! mask = Some mk -> heap s !! obj = Some oa ->
  ndim g = 2%nat ->
  Cv2.boundingRect oa = (x, y, w, h) ->
  croppable g oa ->
  shape mk = shape g ->
  exists gray msk h',
    crop_to_object cv2_rectangle gray_img mask obj s = (Return (gray, msk), set_heap s h')
    /\ shape gray = shape msk
    /\ ((0 <= x)%Z -> (0 <= y)%Z ->
        (x + w <= Z.of_nat (ncols g))%Z -> (y + h <= Z.of_nat (nrows g))%Z ->
        shape gray = [Z.to_nat (h + 2 * (h / 5)); Z.to_nat (w + 2 * (w / 5))]).
Proof.
  intros field_bound mask_bound obj_bound _ rect _ Hs.
  destruct (crop_to_object_run cv2_rectangle _ _ _ _ _ _ _ field_bound mask_bound obj_bound)
    as [h' R].
  destruct (boundingRect_nonneg _ _ _ _ _ rect) as [Hw Hh].
  revert R. unfold restricted. rewrite rect. intros R.
  exists (padded_crop g x y w h), (padded_crop mk x y w h), h'.
  split; [exact R|]. split; [now apply shape_padded_crop|].
  intros Hx Hy Hxw Hyh. rewrite padded_crop_shape.
  destruct (crop_inside g x y w h Hx Hy Hw Hh Hxw Hyh) as (-> & -> & _ & _).
  assert (0 <= h / 5)%Z by (apply Z.div_pos; lia).
  assert (0 <= w / 5)%Z by (apply Z.div_pos; lia).
  f_equal; [lia|]. f_equal. lia.
Qed.

End Crop.

(** ** The claims at concrete inputs *)

Section Concrete.

Import Demo.

Lemma not_supported_red : ~ supported "red".
Proof. intros [H|[H|H]]; discriminate. Qed.

Lemma supported_black : supported "black".
Proof. right; right; reflexivity. Qed.

Lemma supported_white : supported "white".
Proof. right; left; reflexivity. Qed.

(** C1, as the specification states it, fails: with the default bounds 0
    and 255 the sample -5 is below [min_value], and the call leaves it as
    it is. *)
Lemma C1_counterexample :
  heap (run (state_of [arr2 [[-5]]%Z]) None "image" 0 255 None).2 !! 1%positive
  = Some (arr2 [[-5]]%Z)
  /\ ~ clamp_as_specified 0 255 (arr2 [[-5]]%Z) (arr2 [[-5]]%Z).
Proof.
  split; [vm_compute; reflexivity|].
  intros H. destruct (H 0%nat (-5)%Z eq_refl) as [_ H'].
  specialize (H' ltac:(lia)). discriminate.
Qed.

Lemma C1_witness :
  exists g',
    heap (run (state_of [field]) None "image" (-1) 150 None).2 !! 1%positive = Some g'
    /\ shape g' = shape field
    /\ forall k v, data field !! k = Some v ->
         ((v > 150)%Z -> data g' !! k = Some 150%Z)
         /\ ((-1)%Z <> 0%Z -> (v < -1)%Z -> data g' !! k = Some (-1)%Z)
         /\ ((-1)%Z = 0%Z -> (v <= 150)%Z -> data g' !! k = Some v)
         /\ ((-1 <= v <= 150)%Z -> data g' !! k = Some v).
Proof.
  apply (C1_clamp_as_guarded no_raster 1%positive None (Some "jet") "image" (-1) 150
           None None true "." all_int64 (state_of [field]) field);
    [vm_compute; reflexivity | reflexivity | lia | unfold fits; cbn; lia
    | unfold fits; cbn; lia].
Defined.

(** C2, as the specification states it, fails: without a mask the
    selector "red" is not looked at and the call returns a figure. *)
Lemma C2_counterexample :
  ~ supported "red"
  /\ (run (state_of [field]) None "red" 0 255 None).1
     = Return (Plt.mk_figure
                 [Plt.mk_image (Plt.Plain (arr2 [[200; -5]; [3; 151]]%Z)) (Some "jet")]
                 (Some "Pseudocolored image") [Plt.mk_colorbar 33 40] None None).
Proof. split; [apply not_supported_red | vm_compute; reflexivity]. Qed.

Lemma C2_witness :
  (run (state_of [field; fmask]) (Some 2%positive) "red" 0 255 None).1
  = Raise (FatalError
             "Background type red is not supported. Please use 'white', 'black', or 'image'.").
Proof.
  apply (proj1 (proj2 (C2_unsupported_background_with_mask no_raster 1%positive 2%positive
                         (Some "jet") 0 255 None true "." "red" None
                         (state_of [field; fmask]) not_supported_red)) field fmask None);
    [vm_compute; reflexivity | reflexivity | vm_compute; reflexivity | exact I | reflexivity
    | exact I].
Defined.

(** C3 does not hold of the code: the clamp assigns into the caller's
    array.  A field holding 200, shown with [max_value = 150], holds 150
    after the call. *)
Theorem C3_field_is_clamped_in_place :
  heap (state_of [arr2 [[200]]%Z]) !! 1%positive = Some (arr2 [[200]]%Z)
  /\ heap (run (state_of [arr2 [[200]]%Z]) None "image" 0 150 None).2 !! 1%positive
     = Some (arr2 [[150]]%Z).
Proof. split; vm_compute; reflexivity. Qed.

Lemma C4_witness :
  (run (state_of [bgr]) None "image" 0 255 None).1
  = Raise (FatalError "Image must be grayscale.")
  /\ gcf (run (state_of [bgr]) None "image" 0 255 None).2 = gcf (state_of [bgr])
  /\ heap (run (state_of [bgr]) None "image" 0 255 None).2 = heap (state_of [bgr])
  /\ trace (run (state_of [bgr]) None "image" 0 255 None).2 = trace (state_of [bgr]).
Proof.
  apply (C4_not_grayscale_is_fatal no_raster 1%positive None (Some "jet") "image" 0 255
           None None true "." (state_of [bgr]) bgr);
    [vm_compute; reflexivity | vm_compute; lia].
Defined.

Lemma C9_witness :
  exists g1,
    heap (run (state_of [field]) None "image" 0 150 None).2 !! 1%positive = Some g1
    /\ g1 = clamped 0 150 field
    /\ heap (run (run (state_of [field]) None "image" 0 150 None).2
               None "image" 0 150 None).2 !! 1%positive = Some g1.
Proof.
  apply (C9_clamp_idempotent no_raster 1%positive None (Some "jet") "image" 0 150
           None None true "." (state_of [field]) field);
    [lia | vm_compute; reflexivity | reflexivity].
Defined.


Lemma croppable_ramp_blob : croppable ramp blob.
Proof. vm_compute; repeat split; first [lia | reflexivity | discriminate]. Qed.

Lemma croppable_upper_blob : croppable upper blob.
Proof. vm_compute; repeat split; first [lia | reflexivity | discriminate]. Qed.

Lemma C6_witness :
  exists fig out hidden,
    (run (state_of [ramp; upper; blob]) (Some 2%positive) "image" 20 80 (Some 3%positive)).1
    = Return fig
    /\ last (Plt.images fig)
       = Some (Plt.mk_image (Plt.Masked (mk_masked out hidden)) (Some "jet"))
    /\ get2 out (Z.to_nat (7 / 5) + 0) (Z.to_nat (6 / 5) + 0) = 22%Z
    /\ get2 out (Z.to_nat (7 / 5) + 6) (Z.to_nat (6 / 5) + 5) = 80%Z
    /\ heap (run (state_of [ramp; upper; blob]) (Some 2%positive) "image" 20 80
               (Some 3%positive)).2 !! 1%positive
       = Some (clamped 20 80 ramp).
Proof.
  destruct (C6_interior_is_window_of_clamped_field no_raster 1%positive 2%positive
              (Some "jet") 20 80 None true "." all_uint8 "image" 3%positive
              (state_of [ramp; upper; blob]) ramp upper blob 2 2 6 7)
    as (fig & out & hidden & R & L & _ & P & _ & H);
    [vm_compute; reflexivity | reflexivity | apply wf_tabulate2 | vm_compute; reflexivity
    | vm_compute; reflexivity | reflexivity | left; reflexivity | reflexivity
    | apply croppable_ramp_blob | unfold fits; cbn; lia | unfold fits; cbn; lia |].
  exists fig, out, hidden. split; [exact R|]. split; [exact L|].
  split; [|split; [|exact H]].
  - rewrite (P 0%nat 0%nat) by (vm_compute; lia). reflexivity.
  - rewrite (P 6%nat 5%nat) by (vm_compute; lia). reflexivity.
Defined.

Lemma C7_witness :
  exists gray msk h',
    crop_to_object no_raster 1%positive 2%positive 3%positive (state_of [ramp; upper; blob])
    = (Return (gray, msk), set_heap (state_of [ramp; upper; blob]) h')
    /\ int_div 7 5 = (7 / 5)%Z /\ int_div 6 5 = (6 / 5)%Z
    /\ padded_by (Z.to_nat (7 / 5)) (Z.to_nat (6 / 5)) (slice2 ramp 2 (2 + 7) 2 (2 + 6)) gray
    /\ padded_by (Z.to_nat (7 / 5)) (Z.to_nat (6 / 5)) (slice2 upper 2 (2 + 7) 2 (2 + 6)) msk.
Proof.
  apply (C7_padding_is_a_fifth_of_zeros no_raster 1%positive 2%positive 3%positive
           (state_of [ramp; upper; blob]) ramp upper blob 2 2 6 7);
    [vm_compute; reflexivity | vm_compute; reflexivity | vm_compute; reflexivity
    | reflexivity | reflexivity | reflexivity
    | apply croppable_ramp_blob | apply croppable_upper_blob].
Defined.


(** C10, as stated, fails: the bounding rectangle of a contour that
    reaches [(9, 9)] on a 3 x 3 field is [(0, 0, 10, 10)]; the slice keeps
    3 x 3 samples and the padding of 2 makes both arrays 7 x 7, not
    14 x 14. *)
Lemma C10_counterexample :
  Cv2.boundingRect wide = (0, 0, 10, 10)%Z
  /\ shape small_mask = shape small
  /\ match (crop_to_object no_raster 1%positive 2%positive 3%positive
              (state_of [small; small_mask; wide])).1 with
     | Return (gray, msk) =>
         shape gray = [7; 7]%nat /\ shape msk = [7; 7]%nat
         /\ shape gray <> [Z.to_nat (10 + 2 * (10 / 5)); Z.to_nat (10 + 2 * (10 / 5))]
     | Raise _ => False
     end.
Proof.
  split; [reflexivity|]. split; [reflexivity|].
  vm_compute. repeat split. discriminate.
Qed.

Lemma C10_witness :
  exists gray msk h',
    crop_to_object no_raster 1%positive 2%positive 3%positive (state_of [ramp; upper; blob])
    = (Return (gray, msk), set_heap (state_of [ramp; upper; blob]) h')
    /\ shape gray = shape msk
    /\ ((0 <= 2)%Z -> (0 <= 2)%Z ->
        (2 + 6 <= Z.of_nat (ncols ramp))%Z -> (2 + 7 <= Z.of_nat (nrows ramp))%Z ->
        shape gray = [Z.to_nat (7 + 2 * (7 / 5)); Z.to_nat (6 + 2 * (6 / 5))]).
Proof.
  apply (C10_crop_and_pad_keep_shapes_equal no_raster 1%positive 2%positive 3%positive
           (state_of [ramp; upper; blob]) ramp upper blob 2 2 6 7);
    [vm_compute; reflexivity | vm_compute; reflexivity | vm_compute; reflexivity
    | reflexivity | reflexivity | apply croppable_ramp_blob | reflexivity].
Defined.

End Concrete.

(** ** What a call does besides building the figure *)

Section Effects.

Variable cv2_rectangle : ndarray -> Z * Z -> Z * Z -> Z * Z * Z -> Z -> ndarray.

Lemma preserves_bind {A B C} (proj : state -> C) (m : M A) (f : A -> M B) :
  preserves proj m -> (forall a, preserves proj (f a)) -> preserves proj (m ≫= f).
Proof.
  intros Hm Hf s. rewrite bind_run. specialize (Hm s).
  destruct (m s) as [[a|e] s']; cbn in *; [|done]. now rewrite Hf.
Qed.

Lemma preserves_device_load l : preserves device (load l).
Proof. intros s. unfold load. now destruct (heap s !! l). Qed.

Lemma preserves_device_update l f : preserves device (update l f).
Proof. intros s. unfold update. now destruct (heap s !! l). Qed.

Lemma preserves_device_when b (m : M unit) :
  preserves device m -> preserves device (when b m).
Proof. now destruct b. Qed.

Lemma preserves_device_lift_cv {A} (r : Cv2.error + A) : preserves device (lift_cv r).
Proof. now destruct r. Qed.

Lemma preserves_device_lift_ma {A} (r : Np.ma_error + A) : preserves device (lift_ma r).
Proof. now destruct r. Qed.

Lemma preserves_device_background_layer bg g : preserves device (background_layer bg g).
Proof. intros s. unfold background_layer. repeat case_decide; done. Qed.

Lemma preserves_device_decorate im dpi axes path :
  preserves device (decorate im dpi axes path).
Proof. intros s. now rewrite decorate_run. Qed.

Lemma preserves_device_crop_to_object gray_img mask obj :
  preserves device (crop_to_object cv2_rectangle gray_img mask obj).
Proof.
  unfold crop_to_object.
  apply preserves_bind; [apply preserves_device_load|]. intros g.
  apply preserves_bind; [done|]. intros img_copy.
  apply preserves_bind; [apply preserves_device_load|]. intros o.
  destruct (Cv2.boundingRect o) as [[[x y] w] h].
  apply preserves_bind; [apply preserves_device_update|]. intros _.
  apply preserves_bind; [apply preserves_device_load|]. intros g'.
  apply preserves_bind; [apply preserves_device_lift_cv|]. intros gray.
  apply preserves_bind; [apply preserves_device_load|]. intros m.
  apply preserves_bind; [apply preserves_device_lift_cv|]. intros msk. done.
Qed.

Section AnyCall.

Variables (gray_img : loc) (mask : option loc) (cmap : option string)
  (background : string) (min_value max_value : Z) (obj : option loc)
  (dpi : option Z) (axes : bool) (path : string).

Local Abbreviation call :=
  (pseudocolor cv2_rectangle gray_img mask cmap background min_value max_value
     obj dpi axes path).

(** Which arrays have samples in common in memory ([np.shares_memory]):
    the heap gives each array samples of its own, so what is said of an
    array other than the field is said of one that shares none with it. *)
Variable shares_memory : loc -> loc -> Prop.

(** X1.  A call never writes to an array that shares no memory with the
    field: the mask, the contour and any other such array alive before
    the call hold the same samples after it, whether the call returns or
    raises. *)
Theorem X1_only_the_field_is_written (s : state) (l : loc) (a : ndarray) :
  l <> gray_img -> ~ shares_memory l gray_img ->
  heap s !! l = Some a -> heap (call s).2 !! l = Some a.
Proof.
  intros Hne _ Hl. rewrite (pseudocolor_heap _ _ _ _ _ _ _ _ _ _ _ _ _ _ Hl).
  rewrite decide_False; [done|]. tauto.
Qed.

(** X3.  Every call adds exactly one to [params.device], also when it
    raises: the counter is incremented before anything is checked. *)
Theorem X3_device_counts_every_call (s : state) :
  device (call s).2 = (device s + 1)%Z.
Proof.
  unfold pseudocolor. rewrite bind_run. cbn [incr_device].
  match goal with
  | |- device (?k ?s1).2 = _ => enough (preserves device k) as K by (now rewrite K)
  end.
  apply preserves_bind; [apply preserves_device_load|]. intros g0.
  apply preserves_bind; [now apply preserves_device_when|]. intros _.
  apply preserves_bind.
  { unfold clamp_range. apply preserves_bind.
    - apply preserves_device_when, preserves_device_update.
    - intros _. apply preserves_device_when, preserves_device_update. }
  intros _. destruct mask as [m|].
  - apply preserves_bind.
    { destruct obj as [o|]; [apply preserves_device_crop_to_object|].
      apply preserves_bind; [apply preserves_device_load|]. intros g.
      apply preserves_bind; [apply preserves_device_load|]. intros mk. done. }
    intros [gray msk].
    apply preserves_bind; [apply preserves_device_lift_ma|]. intros masked_img.
    apply preserves_bind; [apply preserves_device_background_layer|]. intros [b c].
    apply preserves_bind; [done|]. intros im1.
    apply preserves_bind; [done|]. intros im2.
    apply preserves_device_decorate.
  - apply preserves_bind; [apply preserves_device_load|]. intros g.
    apply preserves_bind; [done|]. intros im1.
    apply preserves_device_decorate.
Qed.

End AnyCall.

End Effects.

(** ** Calls without a mask, and calls one after the other *)

Section Unmasked.

Variable cv2_rectangle : ndarray -> Z * Z -> Z * Z -> Z * Z * Z -> Z -> ndarray.

(** The whole effect of a call without a mask on a two-dimensional
    field. *)
Lemma pseudocolor_unmasked_state (gray_img : loc) (cmap : option string)
    (background : string) (min_value max_value : Z) (obj : option loc) (dpi : option Z)
    (axes : bool) (path : string) (s : state) (g : ndarray) :
  heap s !! gray_img = Some g -> ndim g = 2%nat ->
  let im := Plt.mk_image (Plt.Plain (clamped min_value max_value g)) cmap in
  let fig := decorated (Plt.mk_figure (Plt.images (gcf s) ++ [im]) (Plt.title (gcf s))
                          (Plt.colorbars (gcf s)) (Plt.xticks (gcf s)) (Plt.yticks (gcf s)))
               axes in
  pseudocolor cv2_rectangle gray_img None cmap background min_value max_value
    obj dpi axes path s
  = (Return fig,
     mk_state (device s + 1) (debug s)
       (<[gray_img := clamped min_value max_value g]> (heap s)) fig
       (trace s ++ debug_events (mk_state (device s + 1) (debug s) (heap s) (gcf s) (trace s))
                     fig im dpi path)).
Proof.
  intros Hg H2 im fig. unfold pseudocolor. rewrite (enter_run _ _ _ _ _ _ Hg H2).
  rewrite bind_run. erewrite load_run by (cbn; apply lookup_insert_eq).
  run_monad. now rewrite decorate_run.
Qed.

Lemma clamp_sample_range (a b v : Z) :
  (a <> 0 -> a <= clamp_sample a b v)%Z
  /\ (a = 0 \/ a <= b -> clamp_sample a b v <= b)%Z.
Proof.
  unfold clamp_sample. cbv zeta. rewrite !Z.gtb_ltb.
  split; intros; ltb_cases.
Qed.

(** X4.  Without a mask the call on a two-dimensional field, with bounds
    [min_value <= max_value] that the field's dtype can hold, returns the
    current figure with one image added under the caller's colormap,
    whatever [background] and [obj] are (no crop, no background layer).
    The image is the array the caller's field holds after the call, of the
    field's shape, and each of its samples comes from the sample of the
    field at the same place: [max_value] where that was above [max_value],
    [min_value] where it was below [min_value] and [min_value] is not 0,
    and the sample itself otherwise. *)
Theorem X4_without_mask_whole_clamped_field (dtype_of : ndarray -> dtype)
    (gray_img : loc) (cmap : option string)
    (background : string) (min_value max_value : Z) (obj : option loc) (dpi : option Z)
    (axes : bool) (path : string) (s : state) (g : ndarray) :
  heap s !! gray_img = Some g -> ndim g = 2%nat -> (min_value <= max_value)%Z ->
  fits (dtype_of g) min_value -> fits (dtype_of g) max_value ->
  exists fig g',
    (pseudocolor cv2_rectangle gray_img None cmap background min_value max_value
       obj dpi axes path s).1 = Return fig
    /\ Plt.images fig = Plt.images (gcf s) ++ [Plt.mk_image (Plt.Plain g') cmap]
    /\ heap (pseudocolor cv2_rectangle gray_img None cmap background min_value max_value
               obj dpi axes path s).2 !! gray_img = Some g'
    /\ shape g' = shape g
    /\ length (data g') = length (data g)
    /\ forall k v, data g !! k = Some v ->
         ((v > max_value)%Z -> data g' !! k = Some max_value)
         /\ (min_value <> 0%Z -> (v < min_value)%Z -> data g' !! k = Some min_value)
         /\ (min_value = 0%Z -> (v <= max_value)%Z -> data g' !! k = Some v)
         /\ ((min_value <= v <= max_value)%Z -> data g' !! k = Some v).
Proof.
  intros Hg H2 Hle _ _.
  rewrite (pseudocolor_unmasked_state _ _ _ _ _ _ _ _ _ _ _ Hg H2).
  eexists _, (clamped min_value max_value g).
  split; [reflexivity|]. split; [reflexivity|].
  split; [cbn [snd heap]; apply lookup_insert_eq|].
  split; [apply shape_clamped|].
  rewrite data_clamped, length_map. split; [done|].
  intros k v Hk. rewrite lookup_map, Hk. cbn [fmap option_fmap option_map].
  unfold clamp_sample. cbv zeta. rewrite !Z.gtb_ltb.
  repeat split; intros; f_equal; ltb_cases.
Qed.

(** X6.  Calls draw into pyplot's current figure and nothing clears it:
    the figure a second call returns holds the images and colorbars of
    the first call's figure, then its own image, the field clamped
    again with the second call's bounds, and one more colorbar. *)
Theorem X6_figures_accumulate (gray_img : loc) (cmap cmap' : option string)
    (background background' : string) (a b a' b' : Z) (obj obj' : option loc)
    (dpi dpi' : option Z) (axes axes' : bool) (path path' : string)
    (s : state) (g : ndarray) :
  heap s !! gray_img = Some g -> ndim g = 2%nat ->
  exists fig1 fig2,
    (pseudocolor cv2_rectangle gray_img None cmap background a b obj dpi axes path s).1
    = Return fig1
    /\ (pseudocolor cv2_rectangle gray_img None cmap' background' a' b' obj' dpi' axes' path'
          (pseudocolor cv2_rectangle gray_img None cmap background a b obj dpi axes
             path s).2).1
       = Return fig2
    /\ Plt.images fig2
       = Plt.images fig1 ++ [Plt.mk_image (Plt.Plain (clamped a' b' (clamped a b g))) cmap']
    /\ Plt.colorbars fig2 = Plt.colorbars fig1 ++ [Plt.mk_colorbar 33 40]
    /\ length (Plt.images fig2) = (length (Plt.images (gcf s)) + 2)%nat.
Proof.
  intros Hg H2.
  rewrite (pseudocolor_unmasked_state _ _ _ _ _ _ _ _ _ _ _ Hg H2).
  cbn [fst snd].
  erewrite pseudocolor_unmasked_state;
    [| cbn [heap]; apply lookup_insert_eq | now rewrite ndim_clamped].
  eexists _, _. split; [reflexivity|]. split; [reflexivity|].
  cbn. rewrite !length_app. cbn. repeat split. lia.
Qed.

(** X13.  What the debug mode adds to a call without a mask: in mode
    "print" one file is saved, named by joining [path] with the incremented
    counter followed by "_pseudocolored.png", with the caller's dpi and the
    figure that is returned; in mode "plot" the image of the field is handed
    to [plot_image]; in any other mode nothing is written or shown. *)
Theorem X13_debug_output_without_mask (gray_img : loc) (cmap : option string)
    (background : string) (min_value max_value : Z) (obj : option loc) (dpi : option Z)
    (axes : bool) (path : string) (s : state) (g : ndarray) :
  heap s !! gray_img = Some g -> ndim g = 2%nat ->
  exists fig,
    (pseudocolor cv2_rectangle gray_img None cmap background min_value max_value
       obj dpi axes path s).1 = Return fig
    /\ let out := trace (pseudocolor cv2_rectangle gray_img None cmap background
                          min_value max_value obj dpi axes path s).2 in
       (debug s = Some "print" ->
          out = trace s
                ++ [Savefig (os_path_join path
                               (pretty (device s + 1)%Z +:+ "_pseudocolored.png")) dpi fig])
       /\ (debug s = Some "plot" ->
             out = trace s
                   ++ [PlotImage (Plt.mk_image (Plt.Plain (clamped min_value max_value g))
                                    cmap)])
       /\ (debug s <> Some "print" -> debug s <> Some "plot" -> out = trace s).
Proof.
  intros Hg H2.
  rewrite (pseudocolor_unmasked_state _ _ _ _ _ _ _ _ _ _ _ Hg H2).
  eexists. split; [reflexivity|]. cbn [snd trace]. unfold debug_events. cbn [debug device].
  split; [|split].
  - intros ->. now rewrite decide_True.
  - intros ->. rewrite decide_False by done. now rewrite decide_True.
  - intros Hp Hq. rewrite !decide_False by done. apply app_nil_r.
Qed.

End Unmasked.

(** ** More on calls with a mask *)

Section MaskedEffects.

Variable cv2_rectangle : ndarray -> Z * Z -> Z * Z -> Z * Z * Z -> Z -> ndarray.

Variables (gray_img mask : loc) (cmap : option string)
  (min_value max_value : Z) (dpi : option Z) (axes : bool) (path : string).

Local Abbreviation call background obj :=
  (pseudocolor cv2_rectangle gray_img (Some mask) cmap background min_value max_value
     obj dpi axes path).

(** What is seen at a pixel of a composite. *)
Lemma composite_visible (f : Plt.figure) (background : string) (gray msk : ndarray)
    (i j : nat) :
  wf msk -> shape msk = shape gray -> ndim gray = 2%nat ->
  (i < nrows gray)%nat -> (j < ncols gray)%nat ->
  Plt.visible (Plt.images (composite f background gray msk cmap axes)) i j
  = Some (if negb (get2 msk i j =? 0)%Z
          then overlay_image gray msk cmap else background_image background gray).
Proof.
  intros Hwf Hs H2 Hi Hj.
  assert (Plt.paints (background_image background gray) i j = true) as Hb.
  { unfold Plt.paints, background_image. cbn [Plt.im_data].
    destruct (nrows_ncols_same_shape _ _ (shape_background_of background gray)) as [-> ->].
    apply andb_true_intro. split; now apply Nat.ltb_lt. }
  unfold composite, decorated. cbn [Plt.images].
  rewrite (visible_two_layers _ _ _ _ _ Hb). now rewrite overlay_paints.
Qed.



(** X2.  A call that is refused for its background selector has already
    clamped the caller's field: the call raises, and the field holds the
    clamped samples. *)
Theorem X2_refused_call_has_clamped_the_field (background : string) (obj : option loc)
    (s : state) (g : ndarray) :
  heap s !! gray_img = Some g -> ndim g = 2%nat -> ~ supported background ->
  (exists e, (call background obj s).1 = Raise e)
  /\ heap (call background obj s).2 !! gray_img = Some (clamped min_value max_value g).
Proof.
  intros Hg H2 Hbg. split.
  - apply (pseudocolor_unsupported_raises cv2_rectangle gray_img mask cmap background
             min_value max_value obj dpi axes path Hbg s).
  - rewrite (pseudocolor_heap _ _ _ _ _ _ _ _ _ _ _ _ _ _ Hg). now rewrite decide_True.
Qed.

(** The mask is applied as it is when no object is given. *)
Lemma unrestricted_run (k : ndarray * ndarray -> M Plt.figure) (s : state) (g mk : ndarray) :
  heap s !! gray_img = Some g -> ndim g = 2%nat ->
  after_clamp s gray_img min_value max_value !! mask = Some mk ->
  (incr_device;;
   g0 ← load gray_img;
   when (negb (ndim g0 =? 2)%nat) (fatal_error "Image must be grayscale.");;
   clamp_range gray_img min_value max_value;;
   p ← (g ← load gray_img; m ← load mask; mret (g, m));
   k p) s
  = k (clamped min_value max_value g, mk)
      (mk_state (device s + 1) (debug s)
         (<[gray_img := clamped min_value max_value g]> (heap s)) (gcf s) (trace s)).
Proof.
  intros Hg H2 Hm. rewrite (enter_run _ _ _ _ _ _ Hg H2).
  rewrite (after_clamp_lookup _ _ _ _ _ Hg) in Hm.
  rewrite !bind_run. erewrite load_run by (cbn; apply lookup_insert_eq).
  rewrite bind_run. erewrite load_run by exact Hm. done.
Qed.

(** X7.  Without an object, a mask whose number of samples is neither 1
    nor that of the field makes the call raise numpy's [MaskError] with the
    two sizes.  Nothing has been drawn, written or shown by then; the field
    has been clamped. *)
Theorem X7_mask_of_another_size_is_refused (background : string) (s : state)
    (g mk : ndarray) :
  heap s !! gray_img = Some g -> ndim g = 2%nat ->
  after_clamp s gray_img min_value max_value !! mask = Some mk ->
  wf g -> wf mk ->
  length (data mk) <> 1%nat -> length (data mk) <> length (data g) ->
  (call background None s).1
  = Raise (NpMaskError (MaskError (length (data g)) (length (data mk))))
  /\ gcf (call background None s).2 = gcf s
  /\ trace (call background None s).2 = trace s
  /\ heap (call background None s).2 !! gray_img = Some (clamped min_value max_value g).
Proof.
  intros Hg H2 Hm Hwg Hwm H1 Hne.
  assert (shape mk <> shape g) as Hsh.
  { intros E. apply Hne. unfold wf in *. now rewrite Hwg, Hwm, E. }
  split; [|split; [|split]].
  4:{ rewrite (pseudocolor_heap _ _ _ _ _ _ _ _ _ _ _ _ _ _ Hg). now rewrite decide_True. }
  all: unfold pseudocolor;
    rewrite (unrestricted_run
               (fun p => let '(gray, msk) := p in _) s g mk Hg H2 Hm);
    rewrite bind_run; unfold ma_array; cbn [bshape bits invert astype_bool];
    rewrite shape_clamped, decide_False by done;
    rewrite !length_map, data_clamped, length_map;
    rewrite !decide_False by done; done.
Qed.

(** X8.  Without an object, a mask of another shape than the field but
    with as many samples is accepted silently: the overlay is built as if
    the mask's buffer were laid out in the field's shape, so the pixel
    [(i, j)] is governed by the mask sample at position [i * ncols + j] of
    the buffer, with [ncols] the row length of the field. *)
Theorem X8_mask_of_another_shape_is_reshaped (background : string) (s : state)
    (g mk : ndarray) :
  heap s !! gray_img = Some g -> ndim g = 2%nat ->
  after_clamp s gray_img min_value max_value !! mask = Some mk ->
  wf g -> length (data mk) = length (data g) -> supported background ->
  let field := clamped min_value max_value g in
  let ovl := overlay_image field (reshaped_to g mk) cmap in
  exists fig,
    (call background None s).1 = Return fig
    /\ Plt.images fig = Plt.images (gcf s) ++ [background_image background field; ovl]
    /\ forall i j, (i < nrows g)%nat -> (j < ncols g)%nat ->
         Plt.visible (Plt.images fig) i j
         = Some (if negb (nth (i * ncols g + j) (data mk) 0 =? 0)%Z
                 then ovl else background_image background field).
Proof.
  intros Hg H2 Hm Hwg Hlen Hbg field ovl. subst ovl field.
  set (field := clamped min_value max_value g).
  assert (wf (reshaped_to g mk)) as Hwr
    by (unfold wf, reshaped_to; cbn [data shape]; rewrite Hlen; exact Hwg).
  assert ((call background None s).1
          = Return (composite (gcf s) background field (reshaped_to g mk) cmap axes)) as R.
  { unfold pseudocolor.
    rewrite (unrestricted_run (fun p => let '(gray, msk) := p in _) s g mk Hg H2 Hm).
    fold field. rewrite bind_run.
    assert (ma_array field (invert (astype_bool mk))
            = inr (mk_masked field (bits (invert (astype_bool mk))))) as ->.
    { unfold ma_array. cbn [bshape bits invert astype_bool].
      case_decide; [done|]. rewrite !length_map. unfold field.
      rewrite data_clamped, length_map.
      case_decide as H1; [|now rewrite decide_True].
      destruct (data mk) as [|v [|? ?]] eqn:E; cbn in H1; try done.
      destruct (data g) as [|v0 [|? ?]]; cbn in Hlen; try done. }
    cbn [lift_ma]. run_monad.
    rewrite (background_layer_run _ _ _ Hbg).
    destruct (background_of background field) as [bb c] eqn:Eb.
    rewrite !decorate_run. cbn [fst snd gcf].
    unfold composite, background_image, overlay_image, reshaped_to. rewrite Eb.
    cbn. rewrite <- !app_assoc. done. }
  eexists. split; [exact R|]. split; [done|].
  intros i j Hi Hj.
  rewrite composite_visible; try done.
  - unfold field. now rewrite shape_clamped.
  - unfold field. now rewrite ndim_clamped.
  - unfold field, nrows. now rewrite shape_clamped.
  - unfold field, ncols. now rewrite shape_clamped.
Qed.

End MaskedEffects.

(** ** More on the region restriction *)

Section CropEffects.

Variable cv2_rectangle : ndarray -> Z * Z -> Z * Z -> Z * Z * Z -> Z -> ndarray.

Lemma slice2_as_table (a : ndarray) (r0 r1 c0 c1 : Z) :
  tabulate2 (nrows (slice2 a r0 r1 c0 c1)) (ncols (slice2 a r0 r1 c0 c1))
    (get2 (slice2 a r0 r1 c0 c1))
  = slice2 a r0 r1 c0 c1.
Proof.
  unfold slice2 at 1 2 4. rewrite nrows_tabulate2, ncols_tabulate2.
  apply tabulate2_ext. intros i j Hi Hj. unfold slice2. now rewrite get2_tabulate2.
Qed.

(** A rectangle less than five samples wide and high gets no border. *)
Lemma padded_crop_small (a : ndarray) (x y w h : Z) :
  (0 <= w < 5)%Z -> (0 <= h < 5)%Z ->
  padded_crop a x y w h = slice2 a y (y + h) x (x + w).
Proof.
  intros Hw Hh. unfold padded_crop. cbv zeta.
  rewrite (Z.div_small h 5), (Z.div_small w 5) by lia.
  change (Z.to_nat 0) with 0%nat. rewrite !Nat.add_0_r. etransitivity; [|apply slice2_as_table].
  apply tabulate2_ext. intros i j Hi Hj.
  cbn [Nat.add Nat.leb andb].
  destruct (Nat.ltb_spec i (nrows (slice2 a y (y + h) x (x + w)))); [|lia].
  destruct (Nat.ltb_spec j (ncols (slice2 a y (y + h) x (x + w)))); [|lia].
  cbn [andb]. now rewrite !Nat.sub_0_r.
Qed.

Section OneCrop.

Variables (gray_img mask obj : loc) (s : state) (g mk oa : ndarray) (x y w h : Z).

(** X10.  An object whose bounding rectangle is less than five samples
    wide and less than five high, and cuts windows with samples out of a
    two-dimensional field and mask, gets no margin at all: the field and
    the mask come back as the bare windows [a[y:y+h, x:x+w]]. *)
Theorem X10_small_object_gets_no_margin :
  heap s !! gray_img = Some g -> heap s !! mask = Some mk -> heap s !! obj = Some oa ->
  ndim g = 2%nat -> ndim mk = 2%nat ->
  Cv2.boundingRect oa = (x, y, w, h) ->
  croppable g oa -> croppable mk oa ->
  (w < 5)%Z -> (h < 5)%Z ->
  exists h',
    crop_to_object cv2_rectangle gray_img mask obj s
    = (Return (slice2 g y (y + h) x (x + w), slice2 mk y (y + h) x (x + w)),
       set_heap s h').
Proof.
  intros Hg Hm Ho _ _ Hrect _ _ Hw5 Hh5.
  destruct (crop_to_object_run cv2_rectangle _ _ _ _ _ _ _ Hg Hm Ho) as [h' R].
  destruct (boundingRect_nonneg _ _ _ _ _ Hrect) as [Hw Hh].
  revert R. unfold restricted. rewrite Hrect.
  rewrite !padded_crop_small by lia. eauto.
Qed.

(** X11.  When the bounding rectangle lies inside the field, the sample
    at row [i], column [j] of the rectangle is found in the cropped field
    [h/5] rows and [w/5] columns further in, and so is the mask's. *)
Theorem X11_cropped_sample_position :
  heap s !! gray_img = Some g -> heap s !! mask = Some mk -> heap s !! obj = Some oa ->
  Cv2.boundingRect oa = (x, y, w, h) ->
  shape mk = shape g ->
  (0 <= x)%Z -> (0 <= y)%Z ->
  (x + w <= Z.of_nat (ncols g))%Z -> (y + h <= Z.of_nat (nrows g))%Z ->
  exists gray msk h',
    crop_to_object cv2_rectangle gray_img mask obj s = (Return (gray, msk), set_heap s h')
    /\ forall i j, (i < Z.to_nat h)%nat -> (j < Z.to_nat w)%nat ->
         get2 gray (Z.to_nat (h / 5) + i) (Z.to_nat (w / 5) + j)
         = get2 g (Z.to_nat y + i) (Z.to_nat x + j)
         /\ get2 msk (Z.to_nat (h / 5) + i) (Z.to_nat (w / 5) + j)
            = get2 mk (Z.to_nat y + i) (Z.to_nat x + j).
Proof.
  intros Hg Hm Ho Hrect Hs Hx Hy Hxw Hyh.
  destruct (crop_to_object_run cv2_rectangle _ _ _ _ _ _ _ Hg Hm Ho) as [h' R].
  destruct (boundingRect_nonneg _ _ _ _ _ Hrect) as [Hw Hh].
  revert R. unfold restricted. rewrite Hrect. intros R.
  exists (padded_crop g x y w h), (padded_crop mk x y w h), h'.
  split; [exact R|]. intros i j Hi Hj.
  destruct (nrows_ncols_same_shape _ _ Hs) as [Hr Hc].
  destruct (crop_inside g x y w h Hx Hy Hw Hh Hxw Hyh) as (Hn & Hk & Hy0 & Hx0).
  destruct (crop_inside mk x y w h Hx Hy Hw Hh) as (Hn' & Hk' & Hy0' & Hx0');
    [now rewrite Hc | now rewrite Hr |].
  split.
  - rewrite padded_crop_interior by lia. rewrite crop_sample by lia.
    now rewrite Hy0, Hx0.
  - rewrite padded_crop_interior by lia. rewrite crop_sample by lia.
    now rewrite Hy0', Hx0'.
Qed.

End OneCrop.

Section CroppedCall.

Variables (gray_img mask : loc) (cmap : option string)
  (min_value max_value : Z) (dpi : option Z) (axes : bool) (path : string).

(** X9.  With a mask and an object whose bounding rectangle cuts a
    window with samples out of the field, the margin always shows the
    background: at every pixel of the zero border put around the crop,
    the image seen is the background image, whatever the mask holds. *)
Theorem X9_margin_shows_background (background : string) (obj : loc)
    (s : state) (g mk oa : ndarray) (x y w h : Z) :
  heap s !! gray_img = Some g -> ndim g = 2%nat ->
  after_clamp s gray_img min_value max_value !! mask = Some mk ->
  after_clamp s gray_img min_value max_value !! obj = Some oa ->
  shape mk = shape g -> supported background ->
  Cv2.boundingRect oa = (x, y, w, h) -> croppable g oa ->
  let window := slice2 (clamped min_value max_value g) y (y + h) x (x + w) in
  let top := Z.to_nat (h / 5) in
  let left := Z.to_nat (w / 5) in
  exists fig,
    (pseudocolor cv2_rectangle gray_img (Some mask) cmap background min_value max_value
       (Some obj) dpi axes path s).1 = Return fig
    /\ forall i j,
         (i < nrows window + top + top)%nat -> (j < ncols window + left + left)%nat ->
         ~ ((top <= i < top + nrows window)%nat /\ (left <= j < left + ncols window)%nat) ->
         Plt.visible (Plt.images fig) i j
         = Some (background_image background
                   (padded_crop (clamped min_value max_value g) x y w h)).
Proof.
  intros Hg H2 Hm Ho Hs Hbg Hrect _ window top left.
  destruct (pseudocolor_masked_run cv2_rectangle gray_img mask cmap background
              min_value max_value (Some obj) dpi axes path s g mk (Some oa)
              Hg H2 Hm Ho Hs Hbg) as [R _].
  revert R. unfold restricted. rewrite Hrect. cbn [fst snd]. intros R.
  eexists. split; [exact R|]. intros i j Hi Hj Hout.
  assert (shape mk = shape (clamped min_value max_value g)) as Hs'
    by now rewrite shape_clamped.
  assert (nrows (slice2 mk y (y + h) x (x + w)) = nrows window
          /\ ncols (slice2 mk y (y + h) x (x + w)) = ncols window) as [Hr Hc].
  { destruct (nrows_ncols_same_shape _ _ Hs') as [Hr Hc].
    unfold window, slice2. rewrite !nrows_tabulate2, !ncols_tabulate2. now rewrite Hr, Hc. }
  rewrite (composite_visible cmap axes); try done.
  - rewrite padded_crop_border; [done | | | ]; rewrite ?Hr, ?Hc; done.
  - apply wf_tabulate2.
  - now apply shape_padded_crop.
Qed.

End CroppedCall.

End CropEffects.

(** ** Background subtraction: running the function *)

Section BsMonad.

Import Bs.

Lemma bs_bind_run {A B} (m : M A) (f : A -> M B) (s : state) :
  (m ≫= f) s = match m s with
               | (Return a, s') => f a s'
               | (Raise e, s') => (Raise e, s')
               end.
Proof. done. Qed.

Lemma copy_same (a : ndarray) : Np.copy a = a.
Proof. now destruct a. Qed.

Lemma np_copy_run (l : loc) (a : ndarray) (s : state) :
  heap s !! l = Some a ->
  np_copy l s
  = (Return a, mk_state (<[fresh (dom (heap s)) := a]> (heap s)) (stdout s) (trace s)).
Proof.
  intros Hl. unfold np_copy. rewrite bs_bind_run. unfold load at 1. rewrite Hl.
  rewrite bs_bind_run. cbn [alloc]. now rewrite copy_same.
Qed.

Lemma fresh_other (s : state) (l : loc) (a : ndarray) :
  heap s !! l = Some a -> l <> fresh (dom (heap s)).
Proof. intros Hl ->. apply (is_fresh (dom (heap s))), elem_of_dom. eauto. Qed.

(** The two copies, for images that are alive. *)
Lemma copies_run (bgl fgl : loc) (b f : ndarray) (s : state) :
  heap s !! bgl = Some b -> heap s !! fgl = Some f ->
  exists h',
    (forall l a, heap s !! l = Some a -> h' !! l = Some a)
    /\ forall A (k : ndarray -> ndarray -> M A),
         (bg_img ← np_copy bgl; fg_img ← np_copy fgl; k bg_img fg_img) s
         = k b f (mk_state h' (stdout s) (trace s)).
Proof.
  intros Hb Hf.
  set (s1 := mk_state (<[fresh (dom (heap s)) := b]> (heap s)) (stdout s) (trace s)).
  assert (forall l a, heap s !! l = Some a -> heap s1 !! l = Some a) as H1.
  { intros l a Hl. cbn. rewrite lookup_insert_ne; [done|].
    intros E. now apply (fresh_other s l a Hl). }
  exists (<[fresh (dom (heap s1)) := f]> (heap s1)). split.
  - intros l a Hl. rewrite lookup_insert_ne; [now apply H1|].
    intros E. now apply (fresh_other s1 l a (H1 _ _ Hl)).
  - intros A k. rewrite bs_bind_run, (np_copy_run _ _ _ Hb). fold s1.
    now rewrite bs_bind_run, (np_copy_run _ _ _ (H1 _ _ Hf)).
Qed.

Lemma bs_keeps_bind {A B} (m : M A) (f : A -> M B) :
  keeps m -> (forall a, keeps (f a)) -> keeps (m ≫= f).
Proof.
  intros Hm Hf s l a Hl. rewrite bs_bind_run. specialize (Hm s l a Hl).
  destruct (m s) as [[x|e] s']; cbn in *; [by apply Hf | done].
Qed.

Lemma bs_keeps_pure {A} (m : M A) : (forall s, heap (m s).2 = heap s) -> keeps m.
Proof. intros H s l a Hl. now rewrite H. Qed.

Lemma bs_keeps_np_copy l : keeps (np_copy l).
Proof.
  intros s x a Hx. unfold np_copy. rewrite bs_bind_run. unfold load at 1.
  destruct (heap s !! l); [|done]. rewrite bs_bind_run. cbn.
  rewrite lookup_insert_ne; [done|]. intros E. now apply (fresh_other s x a Hx).
Qed.

Lemma bs_keeps_tuple_get t i : keeps (tuple_get t i).
Proof. apply bs_keeps_pure. intros s. unfold tuple_get. now destruct (t !! i). Qed.

Lemma bs_keeps_lift_cv {A} (r : Cv2.error + A) : keeps (lift_cv r).
Proof. apply bs_keeps_pure. intros s. now destruct r. Qed.

Lemma quiet_bind {A B} (m : M A) (f : A -> M B) :
  quiet m -> (forall a, quiet (f a)) -> quiet (m ≫= f).
Proof.
  intros Hm Hf s. rewrite bs_bind_run. specialize (Hm s).
  destruct (m s) as [[a|e] s']; cbn in *; [|done]. now rewrite Hf.
Qed.

Lemma quiet_np_copy l : quiet (np_copy l).
Proof.
  intros s. unfold np_copy. rewrite bs_bind_run. unfold load at 1.
  now destruct (heap s !! l).
Qed.

Lemma quiet_tuple_get t i : quiet (tuple_get t i).
Proof. intros s. unfold tuple_get. now destruct (t !! i). Qed.

Lemma quiet_lift_cv {A} (r : Cv2.error + A) : quiet (lift_cv r).
Proof. intros s. now destruct r. Qed.

End BsMonad.

(** ** Background subtraction: the size check *)

Section BsSizes.

Import Bs.

Variable cv2_resize : ndarray -> nat * nat -> interpolation -> Cv2.error + ndarray.

Lemma bs_keeps_match_sizes bg fg : keeps (match_sizes cv2_resize bg fg).
Proof.
  unfold match_sizes. destruct (negb _); [|now apply bs_keeps_pure].
  apply bs_keeps_bind; [destruct (negb _); now apply bs_keeps_pure|]. intros _.
  apply bs_keeps_bind; [now apply bs_keeps_pure|]. intros _.
  destruct (tuple_gt _ _);
    (apply bs_keeps_bind; [apply bs_keeps_tuple_get|]; intros w;
     apply bs_keeps_bind; [apply bs_keeps_tuple_get|]; intros h;
     apply bs_keeps_bind; [apply bs_keeps_lift_cv|]; intros r; now apply bs_keeps_pure).
Qed.

Lemma quiet_match_sizes bg fg : quiet (match_sizes cv2_resize bg fg).
Proof.
  unfold match_sizes. destruct (negb _); [|done].
  apply quiet_bind; [now destruct (negb _)|]. intros _.
  apply quiet_bind; [done|]. intros _.
  destruct (tuple_gt _ _);
    (apply quiet_bind; [apply quiet_tuple_get|]; intros w;
     apply quiet_bind; [apply quiet_tuple_get|]; intros h;
     apply quiet_bind; [apply quiet_lift_cv|]; intros r; done).
Qed.

Lemma tuple_gt_head (x y : nat) (a b : list nat) :
  (y < x)%nat -> tuple_gt (x :: a) (y :: b) = true.
Proof.
  intros H. cbn. destruct (Nat.eqb_spec x y); [lia|]. now apply Nat.ltb_lt.
Qed.

Lemma tuple_gt_head_lt (x y : nat) (a b : list nat) :
  (x < y)%nat -> tuple_gt (x :: a) (y :: b) = false.
Proof.
  intros H. cbn. destruct (Nat.eqb_spec x y); [lia|]. apply Nat.ltb_ge. lia.
Qed.

(** X16.  Which image is resized is decided by the order of the shape
    tuples, so by the numbers of rows when these differ: the image with
    more rows is resized to the width and height of the other, however
    many columns either has, after the warning has been printed; the
    other image is passed on as it is. *)
Theorem X16_rows_decide_which_image_is_resized (bg fg : ndarray)
    (hb wb hf wf : nat) (rb rf : list nat) (s : state) :
  shape bg = hb :: wb :: rb -> shape fg = hf :: wf :: rf -> length rb = length rf ->
  let warned := mk_state (heap s) (stdout s ++ [size_warning]) (trace s) in
  ((hf < hb)%nat ->
     match_sizes cv2_resize bg fg s
     = match cv2_resize bg (wf, hf) INTER_AREA with
       | inr r => (Return (r, fg), warned)
       | inl e => (Raise (Cv2Error e), warned)
       end)
  /\ ((hb < hf)%nat ->
        match_sizes cv2_resize bg fg s
        = match cv2_resize fg (wb, hb) INTER_AREA with
          | inr r => (Return (bg, r), warned)
          | inl e => (Raise (Cv2Error e), warned)
          end).
Proof.
  intros Hb Hf Hr warned.
  assert (length (shape bg) = length (shape fg)) as Hn by (rewrite Hb, Hf; cbn; lia).
  split; intros Hlt; unfold match_sizes;
    (rewrite bool_decide_false by (rewrite Hb, Hf; intros [= ? ?]; lia));
    cbn [negb]; rewrite bs_bind_run, Hn, Nat.eqb_refl; cbn [negb when];
    cbv [mret M_ret]; rewrite bs_bind_run; cbn [print]; rewrite Hb, Hf.
  - rewrite tuple_gt_head by done. cbv [tuple_get mbind M_bind mret M_ret]. cbn.
    now destruct (cv2_resize bg (wf, hf) INTER_AREA).
  - rewrite tuple_gt_head_lt by done. cbv [tuple_get mbind M_bind mret M_ret]. cbn.
    now destruct (cv2_resize fg (wb, hb) INTER_AREA).
Qed.

(** X18.  Provided [cv2.resize] returns an image of the size it is asked
    for, the two images that leave the size check have the same numbers of
    rows and columns, and one of them is an image that entered it. *)
Theorem X18_sizes_agree_after_the_check (bg fg bg' fg' : ndarray) (s s' : state) :
  (forall a w h r, cv2_resize a (w, h) INTER_AREA = inr r -> nrows r = h /\ ncols r = w) ->
  match_sizes cv2_resize bg fg s = (Return (bg', fg'), s') ->
  nrows bg' = nrows fg' /\ ncols bg' = ncols fg' /\ (bg' = bg \/ fg' = fg).
Proof.
  intros Hresize. unfold match_sizes.
  destruct (bool_decide (shape bg = shape fg)) eqn:E; cbn [negb].
  { apply bool_decide_eq_true in E. intros [= <- <- _].
    destruct (nrows_ncols_same_shape _ _ E). tauto. }
  rewrite bs_bind_run. destruct (negb _); [done|]. cbn [when]. cbv [mret M_ret].
  rewrite bs_bind_run. cbn [print].
  destruct (tuple_gt _ _); rewrite bs_bind_run; unfold tuple_get at 1.
  - destruct (shape fg !! 1%nat) as [w|] eqn:Ew; [|done]. cbv [mret M_ret].
    rewrite bs_bind_run. unfold tuple_get at 1.
    destruct (shape fg !! 0%nat) as [h|] eqn:Eh; [|done]. cbv [mret M_ret].
    rewrite bs_bind_run.
    destruct (cv2_resize bg (w, h) INTER_AREA) as [e|r] eqn:Er; [done|].
    cbn. intros [= <- <- _]. destruct (Hresize _ _ _ _ Er) as [-> ->].
    unfold nrows, ncols. rewrite !nth_lookup, Ew, Eh. auto.
  - destruct (shape bg !! 1%nat) as [w|] eqn:Ew; [|done]. cbv [mret M_ret].
    rewrite bs_bind_run. unfold tuple_get at 1.
    destruct (shape bg !! 0%nat) as [h|] eqn:Eh; [|done]. cbv [mret M_ret].
    rewrite bs_bind_run.
    destruct (cv2_resize fg (w, h) INTER_AREA) as [e|r] eqn:Er; [done|].
    cbn. intros [= <- <- _]. destruct (Hresize _ _ _ _ Er) as [-> ->].
    unfold nrows, ncols. rewrite !nth_lookup, Ew, Eh. auto.
Qed.

End BsSizes.

(** ** Background subtraction: the whole call *)

Section BsRuns.

Import Bs.

Variable cv2_resize : ndarray -> nat * nat -> interpolation -> Cv2.error + ndarray.
Variable subtractor : Type.
Variable BackgroundSubtractorMOG : subtractor.
Variable mog_apply : subtractor -> ndarray -> Cv2.error + (subtractor * ndarray).

Local Abbreviation run :=
  (background_subtraction cv2_resize subtractor BackgroundSubtractorMOG mog_apply).

(** X14.  Images with different numbers of dimensions make the call fail
    with the fatal error "Images must both be single-channel/grayscale/binary
    or RGB"; nothing has been printed, written or shown by then. *)
Theorem X14_dimension_mismatch_is_fatal (bgl fgl : loc) (device : Z)
    (debug : option string) (s : state) (b f : ndarray) :
  heap s !! bgl = Some b -> heap s !! fgl = Some f ->
  length (shape b) <> length (shape f) ->
  (run bgl fgl device debug s).1
  = Raise (FatalError "Images must both be single-channel/grayscale/binary or RGB")
  /\ stdout (run bgl fgl device debug s).2 = stdout s
  /\ trace (run bgl fgl device debug s).2 = trace s.
Proof.
  intros Hb Hf Hn. unfold background_subtraction.
  destruct (copies_run bgl fgl b f s Hb Hf) as (h' & _ & ->).
  rewrite bs_bind_run. unfold match_sizes.
  rewrite bool_decide_false by (intros E; apply Hn; now rewrite E). cbn [negb].
  rewrite bs_bind_run.
  destruct (Nat.eqb_spec (length (shape b)) (length (shape f))); [done|].
  done.
Qed.

(** X15.  When the two images have the same shape, nothing is resized
    and no warning is printed: a new subtractor is given the background,
    then the foreground, and the call returns the incremented device with
    the mask of the second step. *)
Theorem X15_equal_shapes_are_subtracted_as_they_are (bgl fgl : loc) (device : Z)
    (debug : option string) (s : state) (b f : ndarray)
    (m1 m2 : subtractor) (k1 k2 : ndarray) :
  heap s !! bgl = Some b -> heap s !! fgl = Some f ->
  shape b = shape f ->
  mog_apply BackgroundSubtractorMOG b = inr (m1, k1) ->
  mog_apply m1 f = inr (m2, k2) ->
  (run bgl fgl device debug s).1 = Return ((device + 1)%Z, k2)
  /\ stdout (run bgl fgl device debug s).2 = stdout s.
Proof.
  intros Hb Hf Hs Ha1 Ha2. unfold background_subtraction.
  destruct (copies_run bgl fgl b f s Hb Hf) as (h' & _ & ->).
  rewrite bs_bind_run. unfold match_sizes.
  rewrite bool_decide_true by done. cbn [negb].
  cbv [mret M_ret]. rewrite bs_bind_run, Ha1. cbn [lift_cv]. cbv [mret M_ret].
  rewrite bs_bind_run, Ha2. cbn [lift_cv]. cbv [mret M_ret].
  rewrite bs_bind_run. repeat case_decide; done.
Qed.

(** X17.  One-dimensional images of different lengths pass the check on
    the number of dimensions and then fail on [shape[1]]: the call raises
    [IndexError] after it has printed the warning. *)
Theorem X17_vectors_of_different_length_raise_IndexError (bgl fgl : loc) (device : Z)
    (debug : option string) (s : state) (b f : ndarray) (n m : nat) :
  heap s !! bgl = Some b -> heap s !! fgl = Some f ->
  shape b = [n] -> shape f = [m] -> n <> m ->
  (run bgl fgl device debug s).1 = Raise (IndexError "tuple index out of range")
  /\ stdout (run bgl fgl device debug s).2 = stdout s ++ [size_warning]
  /\ trace (run bgl fgl device debug s).2 = trace s.
Proof.
  intros Hb Hf Hsb Hsf Hne. unfold background_subtraction.
  destruct (copies_run bgl fgl b f s Hb Hf) as (h' & _ & ->).
  rewrite bs_bind_run. unfold match_sizes. rewrite Hsb, Hsf.
  rewrite bool_decide_false by congruence. cbn [negb length Nat.eqb when].
  rewrite bs_bind_run. cbv [mret M_ret]. rewrite bs_bind_run. cbn [print].
  destruct (tuple_gt [n] [m]); rewrite bs_bind_run; done.
Qed.

(** X19.  A call that returns gives back the device it was given plus
    one, and its debug output is made of the mask it returns: in mode
    "print" the mask is saved under the incremented device followed by
    "_background_subtraction.png"; in mode "plot" it is shown with the map
    "gray"; in any other mode nothing is written or shown. *)
Theorem X19_device_and_debug_output (bgl fgl : loc) (device : Z)
    (debug : option string) (s : state) (d : Z) (fgmask : ndarray) :
  (run bgl fgl device debug s).1 = Return (d, fgmask) ->
  d = (device + 1)%Z
  /\ (debug = Some "print" ->
        trace (run bgl fgl device debug s).2
        = trace s ++ [PrintImage fgmask
                        (pretty (device + 1)%Z +:+ "_background_subtraction.png")])
  /\ (debug = Some "plot" ->
        trace (run bgl fgl device debug s).2 = trace s ++ [PlotImage fgmask "gray"])
  /\ (debug <> Some "print" -> debug <> Some "plot" ->
        trace (run bgl fgl device debug s).2 = trace s).
Proof.
  unfold background_subtraction.
  rewrite bs_bind_run. pose proof (quiet_np_copy bgl s) as Q1.
  destruct (np_copy bgl s) as [[bg|e] s1]; [|done]. cbn [snd] in Q1.
  rewrite bs_bind_run. pose proof (quiet_np_copy fgl s1) as Q2.
  destruct (np_copy fgl s1) as [[fg|e] s2]; [|done]. cbn [snd] in Q2.
  rewrite bs_bind_run. pose proof (quiet_match_sizes cv2_resize bg fg s2) as Q3.
  destruct (match_sizes cv2_resize bg fg s2) as [[[bg' fg']|e] s3]; [|done].
  cbn [snd] in Q3.
  rewrite bs_bind_run.
  destruct (mog_apply BackgroundSubtractorMOG bg') as [e|[m1 k1]]; [done|].
  cbn [lift_cv]. cbv [mret M_ret]. rewrite bs_bind_run.
  destruct (mog_apply m1 fg') as [e|[m2 k2]]; [done|].
  cbn [lift_cv]. cbv [mret M_ret]. rewrite bs_bind_run.
  assert (trace s3 = trace s) as Q by congruence.
  repeat case_decide; cbn; intros [= <- <-]; rewrite Q;
    repeat split; intros; try congruence; try done; now rewrite ?app_nil_r.
Qed.

End BsRuns.

(** ** The further properties at concrete inputs *)

Section MoreConcrete.

Import Demo Samples.

Lemma supported_image : supported "image".
Proof. left; reflexivity. Qed.

Lemma X1_witness :
  heap (run (state_of [field; fmask]) (Some 2%positive) "white" 0 150 None).2 !! 2%positive
  = Some fmask.
Proof.
  apply (X1_only_the_field_is_written no_raster 1%positive (Some 2%positive) (Some "jet")
           "white" 0 150 None None true "." (fun l l' => l = l') (state_of [field; fmask])
           2%positive fmask);
    [discriminate | discriminate | vm_compute; reflexivity].
Defined.

Lemma X2_witness :
  (exists e, (run (state_of [field; fmask]) (Some 2%positive) "red" 0 150 None).1 = Raise e)
  /\ heap (run (state_of [field; fmask]) (Some 2%positive) "red" 0 150 None).2 !! 1%positive
     = Some (clamped 0 150 field).
Proof.
  apply (X2_refused_call_has_clamped_the_field no_raster 1%positive 2%positive (Some "jet")
           0 150 None true "." "red" None (state_of [field; fmask]) field);
    [vm_compute; reflexivity | reflexivity | apply not_supported_red].
Defined.

Lemma X4_witness :
  exists fig g',
    (run (state_of [field]) None "red" (-1) 150 (Some 9%positive)).1 = Return fig
    /\ Plt.images fig
       = Plt.images (gcf (state_of [field])) ++ [Plt.mk_image (Plt.Plain g') (Some "jet")]
    /\ heap (run (state_of [field]) None "red" (-1) 150 (Some 9%positive)).2 !! 1%positive
       = Some g'
    /\ data g' = [150; -1; 3; 150]%Z.
Proof.
  destruct (X4_without_mask_whole_clamped_field no_raster all_int64 1%positive (Some "jet")
              "red" (-1) 150 (Some 9%positive) None true "." (state_of [field]) field)
    as (fig & g' & R & I & H & _ & L & P);
    [vm_compute; reflexivity | reflexivity | lia | unfold fits; cbn; lia
    | unfold fits; cbn; lia |].
  exists fig, g'. split; [exact R|]. split; [exact I|]. split; [exact H|].
  destruct (P 0%nat 200%Z eq_refl) as (P0 & _).
  destruct (P 1%nat (-5)%Z eq_refl) as (_ & P1 & _).
  destruct (P 2%nat 3%Z eq_refl) as (_ & _ & _ & P2).
  destruct (P 3%nat 151%Z eq_refl) as (P3 & _).
  specialize (P0 ltac:(lia)). specialize (P1 ltac:(lia) ltac:(lia)).
  specialize (P2 ltac:(lia)). specialize (P3 ltac:(lia)).
  destruct (data g') as [|v0 [|v1 [|v2 [|v3 [|]]]]]; try discriminate L.
  cbn in P0, P1, P2, P3. congruence.
Defined.

Lemma X6_witness :
  exists fig1 fig2,
    (run (state_of [field]) None "image" 0 150 None).1 = Return fig1
    /\ (run (run (state_of [field]) None "image" 0 150 None).2 None "image" 0 100 None).1
       = Return fig2
    /\ Plt.images fig2
       = Plt.images fig1
         ++ [Plt.mk_image (Plt.Plain (clamped 0 100 (clamped 0 150 field))) (Some "jet")]
    /\ Plt.colorbars fig2 = Plt.colorbars fig1 ++ [Plt.mk_colorbar 33 40]
    /\ length (Plt.images fig2) = (length (Plt.images (gcf (state_of [field]))) + 2)%nat.
Proof.
  apply (X6_figures_accumulate no_raster 1%positive (Some "jet") (Some "jet") "image" "image"
           0 150 0 100 None None None None true true "." "." (state_of [field]) field);
    [vm_compute; reflexivity | reflexivity].
Defined.

Lemma X7_witness :
  (run (state_of [field; short_mask]) (Some 2%positive) "image" 0 150 None).1
  = Raise (NpMaskError (MaskError (length (data field)) (length (data short_mask))))
  /\ gcf (run (state_of [field; short_mask]) (Some 2%positive) "image" 0 150 None).2
     = gcf (state_of [field; short_mask])
  /\ trace (run (state_of [field; short_mask]) (Some 2%positive) "image" 0 150 None).2
     = trace (state_of [field; short_mask])
  /\ heap (run (state_of [field; short_mask]) (Some 2%positive) "image" 0 150 None).2
       !! 1%positive
     = Some (clamped 0 150 field).
Proof.
  apply (X7_mask_of_another_size_is_refused no_raster 1%positive 2%positive (Some "jet")
           0 150 None true "." "image" (state_of [field; short_mask]) field short_mask);
    [vm_compute; reflexivity | reflexivity | vm_compute; reflexivity | reflexivity
    | reflexivity | vm_compute; lia | vm_compute; lia].
Defined.

Lemma X8_witness :
  exists fig,
    (run (state_of [field; column_mask]) (Some 2%positive) "black" 0 150 None).1 = Return fig
    /\ Plt.visible (Plt.images fig) 1 1
       = Some (overlay_image (clamped 0 150 field) (reshaped_to field column_mask)
                 (Some "jet"))
    /\ Plt.visible (Plt.images fig) 0 1
       = Some (background_image "black" (clamped 0 150 field)).
Proof.
  destruct (X8_mask_of_another_shape_is_reshaped no_raster 1%positive 2%positive
              (Some "jet") 0 150 None true "." "black" (state_of [field; column_mask])
              field column_mask) as (fig & R & _ & V);
    [vm_compute; reflexivity | reflexivity | vm_compute; reflexivity | reflexivity
    | reflexivity | apply supported_black |].
  exists fig. split; [exact R|]. split.
  - rewrite (V 1%nat 1%nat) by (vm_compute; lia). reflexivity.
  - rewrite (V 0%nat 1%nat) by (vm_compute; lia). reflexivity.
Defined.

Lemma X9_witness :
  exists fig,
    (run (state_of [ramp; upper; blob]) (Some 2%positive) "white" 20 80 (Some 3%positive)).1
    = Return fig
    /\ Plt.visible (Plt.images fig) 0 3
       = Some (background_image "white" (padded_crop (clamped 20 80 ramp) 2 2 6 7)).
Proof.
  destruct (X9_margin_shows_background no_raster 1%positive 2%positive (Some "jet") 20 80
              None true "." "white" 3%positive (state_of [ramp; upper; blob])
              ramp upper blob 2 2 6 7) as (fig & R & V);
    [vm_compute; reflexivity | reflexivity | vm_compute; reflexivity
    | vm_compute; reflexivity | reflexivity | apply supported_white | reflexivity
    | vm_compute; repeat split; first [lia | reflexivity | discriminate] |].
  exists fig. split; [exact R|].
  apply (V 0%nat 3%nat); vm_compute; lia.
Defined.

Lemma X10_witness :
  exists h',
    crop_to_object no_raster 1%positive 2%positive 3%positive (state_of [ramp; upper; speck])
    = (Return (slice2 ramp 2 (2 + 4) 2 (2 + 3), slice2 upper 2 (2 + 4) 2 (2 + 3)),
       set_heap (state_of [ramp; upper; speck]) h').
Proof.
  apply (X10_small_object_gets_no_margin no_raster 1%positive 2%positive 3%positive
           (state_of [ramp; upper; speck]) ramp upper speck 2 2 3 4);
    [vm_compute; reflexivity | vm_compute; reflexivity | vm_compute; reflexivity
    | reflexivity | reflexivity | reflexivity | vm_compute; repeat split; first [lia | reflexivity | discriminate]
    | vm_compute; repeat split; first [lia | reflexivity | discriminate] | lia | lia].
Defined.

Lemma X11_witness :
  exists gray msk h',
    crop_to_object no_raster 1%positive 2%positive 3%positive (state_of [ramp; upper; blob])
    = (Return (gray, msk), set_heap (state_of [ramp; upper; blob]) h')
    /\ get2 gray (Z.to_nat (7 / 5) + 0) (Z.to_nat (6 / 5) + 0)
       = get2 ramp (Z.to_nat 2 + 0) (Z.to_nat 2 + 0).
Proof.
  destruct (X11_cropped_sample_position no_raster 1%positive 2%positive 3%positive
              (state_of [ramp; upper; blob]) ramp upper blob 2 2 6 7)
    as (gray & msk & h' & R & P);
    [vm_compute; reflexivity | vm_compute; reflexivity | vm_compute; reflexivity
    | reflexivity | reflexivity | lia | lia | vm_compute; discriminate
    | vm_compute; discriminate |].
  exists gray, msk, h'. split; [exact R|].
  apply (P 0%nat 0%nat); vm_compute; lia.
Defined.


Lemma X13_witness :
  exists fig,
    (pseudocolor no_raster 1%positive None (Some "jet") "image" 0 150 None
       (Some 300%Z) true "out" (printing [field])).1 = Return fig
    /\ trace (pseudocolor no_raster 1%positive None (Some "jet") "image" 0 150 None
                (Some 300%Z) true "out" (printing [field])).2
       = [Savefig "out/1_pseudocolored.png" (Some 300%Z) fig].
Proof.
  destruct (X13_debug_output_without_mask no_raster 1%positive (Some "jet") "image" 0 150
              None (Some 300%Z) true "out" (printing [field]) field) as (fig & R & P & _);
    [vm_compute; reflexivity | reflexivity |].
  exists fig. split; [exact R|]. rewrite (P eq_refl). reflexivity.
Defined.

Lemma X14_witness :
  (subtract [bgr; field] 7 None).1
  = Bs.Raise (Bs.FatalError "Images must both be single-channel/grayscale/binary or RGB")
  /\ Bs.stdout (subtract [bgr; field] 7 None).2 = Bs.stdout (Bs.state_of [bgr; field])
  /\ Bs.trace (subtract [bgr; field] 7 None).2 = Bs.trace (Bs.state_of [bgr; field]).
Proof.
  apply (X14_dimension_mismatch_is_fatal Bs.nearest_resize (option ndarray) None
           Bs.frame_diff 1%positive 2%positive 7 None (Bs.state_of [bgr; field]) bgr field);
    [vm_compute; reflexivity | vm_compute; reflexivity | vm_compute; lia].
Defined.

Lemma X15_witness :
  (subtract [field; moved] 7 None).1
  = Bs.Return (8%Z, mk_ndarray [2; 2]%nat [0; 0; 255; 0]%Z)
  /\ Bs.stdout (subtract [field; moved] 7 None).2 = Bs.stdout (Bs.state_of [field; moved]).
Proof.
  apply (X15_equal_shapes_are_subtracted_as_they_are Bs.nearest_resize (option ndarray) None
           Bs.frame_diff 1%positive 2%positive 7 None (Bs.state_of [field; moved])
           field moved (Some field) (Some moved)
           (mk_ndarray [2; 2]%nat [0; 0; 0; 0]%Z) (mk_ndarray [2; 2]%nat [0; 0; 255; 0]%Z));
    [vm_compute; reflexivity | vm_compute; reflexivity | reflexivity | reflexivity
    | reflexivity].
Defined.

Lemma X16_witness :
  ((2 < 3)%nat ->
     Bs.match_sizes Bs.nearest_resize small field (Bs.state_of [])
     = match Bs.nearest_resize small (2%nat, 2%nat) Bs.INTER_AREA with
       | inr r =>
           (Bs.Return (r, field),
            Bs.mk_state (Bs.heap (Bs.state_of []))
              (Bs.stdout (Bs.state_of []) ++ [Bs.size_warning]) (Bs.trace (Bs.state_of [])))
       | inl e =>
           (Bs.Raise (Bs.Cv2Error e),
            Bs.mk_state (Bs.heap (Bs.state_of []))
              (Bs.stdout (Bs.state_of []) ++ [Bs.size_warning]) (Bs.trace (Bs.state_of [])))
       end)
  /\ ((3 < 2)%nat ->
        Bs.match_sizes Bs.nearest_resize small field (Bs.state_of [])
        = match Bs.nearest_resize field (3%nat, 3%nat) Bs.INTER_AREA with
          | inr r =>
              (Bs.Return (small, r),
               Bs.mk_state (Bs.heap (Bs.state_of []))
                 (Bs.stdout (Bs.state_of []) ++ [Bs.size_warning])
                 (Bs.trace (Bs.state_of [])))
          | inl e =>
              (Bs.Raise (Bs.Cv2Error e),
               Bs.mk_state (Bs.heap (Bs.state_of []))
                 (Bs.stdout (Bs.state_of []) ++ [Bs.size_warning])
                 (Bs.trace (Bs.state_of [])))
          end).
Proof.
  apply (X16_rows_decide_which_image_is_resized Bs.nearest_resize small field
           3 3 2 2 [] [] (Bs.state_of [])); reflexivity.
Defined.

Lemma X17_witness :
  (subtract [vec2; vec3] 7 None).1 = Bs.Raise (Bs.IndexError "tuple index out of range")
  /\ Bs.stdout (subtract [vec2; vec3] 7 None).2
     = Bs.stdout (Bs.state_of [vec2; vec3]) ++ [Bs.size_warning]
  /\ Bs.trace (subtract [vec2; vec3] 7 None).2 = Bs.trace (Bs.state_of [vec2; vec3]).
Proof.
  apply (X17_vectors_of_different_length_raise_IndexError Bs.nearest_resize (option ndarray)
           None Bs.frame_diff 1%positive 2%positive 7 None (Bs.state_of [vec2; vec3])
           vec2 vec3 2 3);
    [vm_compute; reflexivity | vm_compute; reflexivity | reflexivity | reflexivity | lia].
Defined.

Lemma nearest_resize_size (a : ndarray) (w h : nat) (r : ndarray) :
  Bs.nearest_resize a (w, h) Bs.INTER_AREA = inr r -> nrows r = h /\ ncols r = w.
Proof. unfold Bs.nearest_resize. destruct (_ || _); [done|]. now intros [= <-]. Qed.

Lemma X18_witness :
  match Bs.match_sizes Bs.nearest_resize small field (Bs.state_of []) with
  | (Bs.Return (bg', fg'), _) =>
      nrows bg' = nrows fg' /\ ncols bg' = ncols fg' /\ (bg' = small \/ fg' = field)
  | (Bs.Raise _, _) => False
  end.
Proof.
  destruct (Bs.match_sizes Bs.nearest_resize small field (Bs.state_of []))
    as [[[bg' fg']|e] s'] eqn:E.
  - exact (X18_sizes_agree_after_the_check Bs.nearest_resize small field bg' fg'
             (Bs.state_of []) s' nearest_resize_size E).
  - vm_compute in E. discriminate.
Defined.

Lemma X19_witness :
  8%Z = (7 + 1)%Z
  /\ (Some "print" = Some "print" ->
        Bs.trace (subtract [field; moved] 7 (Some "print")).2
        = Bs.trace (Bs.state_of [field; moved])
          ++ [Bs.PrintImage (mk_ndarray [2; 2]%nat [0; 0; 255; 0]%Z)
                (pretty (7 + 1)%Z +:+ "_background_subtraction.png")])
  /\ (Some "print" = Some "plot" ->
        Bs.trace (subtract [field; moved] 7 (Some "print")).2
        = Bs.trace (Bs.state_of [field; moved])
          ++ [Bs.PlotImage (mk_ndarray [2; 2]%nat [0; 0; 255; 0]%Z) "gray"])
  /\ (Some "print" <> Some "print" -> Some "print" <> Some "plot" ->
        Bs.trace (subtract [field; moved] 7 (Some "print")).2
        = Bs.trace (Bs.state_of [field; moved])).
Proof.
  apply (X19_device_and_debug_output Bs.nearest_resize (option ndarray) None Bs.frame_diff
           1%positive 2%positive 7 (Some "print") (Bs.state_of [field; moved])
           8 (mk_ndarray [2; 2]%nat [0; 0; 255; 0]%Z)).
  vm_compute; reflexivity.
Defined.

End MoreConcrete.
